(** * Offline task queue and sync pass: a shallow embedding

    The development follows the TypeScript sources:
    - [src/types/index.ts]           the data model (module [Types]);
    - [src/db/database.ts]           the SQLite tables and the SQL statements
                                     the services issue (modules [Sql], [Database]);
    - [src/services/taskService.ts]  task CRUD (module [TaskService]);
    - [src/services/syncService.ts]  the sync pass (module [SyncService]);
    - the two routers                (modules [TaskRouter], [SyncRouter]).

    An [async] function is a computation in the monad [M]: it threads the
    world (the database and the network) and either fulfils with a value or
    rejects with an error; [try]/[catch] is [try_catch].  Values the
    environment supplies ([uuidv4()], [new Date().toISOString()], SQLite's
    [CURRENT_TIMESTAMP]) are explicit arguments. *)

From stdpp Require Import gmap strings list sorting.
From Stdlib Require Import ZArith.

(** ** src/types/index.ts *)

Module Types.

(** [Task.sync_status]: 'pending' | 'synced' | 'error'. *)
Inductive SyncStatus := pending | synced | error.

(** [SyncQueueItem.status]: 'pending' | 'success' | 'error'. *)
Inductive QueueStatus := q_pending | q_success | q_error.

(** [SyncQueueItem.operation]: 'create' | 'update' | 'delete'. *)
Inductive Operation := create | update | delete.

(** [BatchSyncResponse.processed_items[i].status]. *)
Inductive RemoteStatus := r_success | r_conflict | r_error.

End Types.
Export Types.

#[global] Instance SyncStatus_eq_dec : EqDecision SyncStatus.
Proof. solve_decision. Defined.
#[global] Instance QueueStatus_eq_dec : EqDecision QueueStatus.
Proof. solve_decision. Defined.
#[global] Instance Operation_eq_dec : EqDecision Operation.
Proof. solve_decision. Defined.

(** A task, both as the object the services build and as a row of the
    [tasks] table.  [server_id] and [last_synced_at] are optional in the
    interface and nullable in the table: [None] is undefined / NULL.
    [completed] and [is_deleted] are stored as 0/1. *)
Module Task.
Record t := mk {
  id : string;
  title : string;
  description : string;
  completed : bool;
  created_at : string;
  updated_at : string;
  is_deleted : bool;
  sync_status : SyncStatus;
  server_id : option string;
  last_synced_at : option string;
}.
End Task.

#[global] Instance Task_eq_dec : EqDecision Task.t.
Proof. solve_decision. Defined.

(** The fields of a [Partial<Task>] request body that [createTask] and
    [updateTask] read; [None] is an absent (undefined) field. *)
Module PartialTask.
Record t := mk {
  title : option string;
  description : option string;
  completed : option bool;
}.
End PartialTask.

(** The [data] column of [sync_queue]: the JSON text of what was enqueued.
    [JSON.stringify]/[JSON.parse] are abstracted to the value they carry: a
    task object ([createTask], [updateTask]), the object [{ id }]
    ([deleteTask]), or any other JSON text.  The column only ever receives
    the output of [JSON.stringify], so parsing it back does not throw. *)
Inductive Data :=
| DTask (t : Task.t)
| DId (id : string)
| DJson (text : string).

#[global] Instance Data_eq_dec : EqDecision Data.
Proof. solve_decision. Defined.

(** A row of [sync_queue] and the [SyncQueueItem] built from it.  [id] is
    [TEXT PRIMARY KEY] without NOT NULL in an ordinary rowid table, so an
    INSERT that does not list the column stores NULL ([None]).
    [retry_count] is a counter starting at 0. *)
Module SyncQueueItem.
Record t := mk {
  id : option string;
  task_id : string;
  operation : Operation;
  data : Data;
  status : QueueStatus;
  created_at : string;
  retry_count : nat;
  error_message : option string;
  last_attempt : option string;
}.
End SyncQueueItem.

#[global] Instance SyncQueueItem_eq_dec : EqDecision SyncQueueItem.t.
Proof. solve_decision. Defined.

(** One element of [BatchSyncResponse.processed_items]: what the remote
    answers for an operation. *)
Module Response.
Record t := mk {
  client_id : string;
  server_id : option string;
  status : RemoteStatus;
  resolved_data : option Task.t;
  error : option string;
}.
End Response.

(** [SyncResult] as [SyncService.sync] returns it. *)
Module SyncResult.
Record t := mk {
  success : bool;
  synced_items : nat;
  failed_items : nat;
}.
End SyncResult.

(** What [SyncService.processSyncQueue] returns. *)
Module BatchResult.
Record t := mk {
  success : bool;
  failed : list string;
}.
End BatchResult.

(** ** The world: database and network *)

(** The two tables.  [tasks] is keyed by its primary key; [sync_queue] is
    kept in rowid order, which for a table that only ever receives INSERTs
    is insertion order, and is the order a SELECT without ORDER BY scans. *)
Record Store := mkStore {
  tasks : gmap string Task.t;
  sync_queue : list SyncQueueItem.t;
}.

(** What an [axios] call does: fulfil with the response or reject. *)
Inductive Err :=
| SqliteConstraint (what : string)
| SqliteMismatch (what : string)
| NetworkError (what : string).

Inductive PostResult :=
| Fulfilled (r : Response.t)
| Rejected (e : Err).

(** The remote peer.  [reachable] answers GET /health; [respond k d] answers
    the [k]-th POST /sync of the run, whose body is [d]; [wire] logs every
    POST that was attempted, with its outcome, oldest first. *)
Record Net := mkNet {
  reachable : bool;
  respond : nat -> Data -> PostResult;
  wire : list (Data * PostResult);
}.

Record World := mkWorld {
  db : Store;
  net : Net;
}.

Definition set_db (s : Store) (w : World) : World := mkWorld s (net w).
Definition set_net (n : Net) (w : World) : World := mkWorld (db w) n.

(** ** Promises *)

Inductive Result (A : Type) :=
| Ok (a : A)
| Threw (e : Err).
Arguments Ok {A} a.
Arguments Threw {A} e.

Definition M (A : Type) : Type := World -> Result A * World.

Definition ret {A} (a : A) : M A := fun w => (Ok a, w).
Definition throw {A} (e : Err) : M A := fun w => (Threw e, w).

Definition bind {A B} (c : M A) (k : A -> M B) : M B :=
  fun w =>
    match c w with
    | (Ok a, w') => k a w'
    | (Threw e, w') => (Threw e, w')
    end.

(** [try { c } catch (err) { h err }]: effects of [c] before the throw stay. *)
Definition try_catch {A} (c : M A) (h : Err -> M A) : M A :=
  fun w =>
    match c w with
    | (Ok a, w') => (Ok a, w')
    | (Threw e, w') => h e w'
    end.

Declare Scope promise_scope.
Delimit Scope promise_scope with promise.
Notation "'let*' x := c 'in' k" := (bind c (fun x => k))
  (at level 10, x pattern, c at level 200, k at level 200) : promise_scope.
Open Scope promise_scope.

(** [for (const item of l) { body }], the loop's local variables being [s]. *)
Fixpoint for_of {A S} (l : list A) (body : A -> S -> M S) (s : S) : M S :=
  match l with
  | [] => ret s
  | item :: rest => let* s' := body item s in for_of rest body s'
  end.

Definition get_db : M Store := fun w => (Ok (db w), w).
Definition put_db (s : Store) : M unit := fun w => (Ok tt, set_db s w).

(** ** The SQL statements of the sources *)

Module Sql.

(** The number bound to [LIMIT ?] (an integer-valued JS number).  Within
    the 64-bit range it is bound as an integer.  Outside it is bound as a
    double, which SQLite cannot turn into a limit without loss: the statement
    fails with SQLITE_MISMATCH and the query rejects. *)
Definition int64 (n : Z) : bool := ((- 2 ^ 63 <=? n) && (n <? 2 ^ 63))%Z.

Definition mismatch : Err := SqliteMismatch "SQLITE_MISMATCH: datatype mismatch".

(** [LIMIT n] for a 64-bit [n]: SQLite reads a negative limit as no limit. *)
Definition limit {A} (n : Z) (rows : list A) : list A :=
  if (n <? 0)%Z then rows else take (Z.to_nat n) rows.

(** [ORDER BY created_at ASC]: the column holds text, compared bytewise. *)
Definition created_le (a b : SyncQueueItem.t) : Prop :=
  String.leb (SyncQueueItem.created_at a) (SyncQueueItem.created_at b) = true.

#[global] Instance created_le_dec a b : Decision (created_le a b).
Proof. unfold created_le. apply _. Defined.

Definition is_pending (r : SyncQueueItem.t) : bool :=
  bool_decide (SyncQueueItem.status r = q_pending).

(** INSERT INTO tasks (id, title, description, completed, is_deleted,
    sync_status, created_at, updated_at) VALUES (...): the two columns not
    listed get NULL; a taken primary key violates the constraint. *)
Definition insert_task (t : Task.t) : M unit :=
  let* s := get_db in
  match tasks s !! Task.id t with
  | Some _ => throw (SqliteConstraint "UNIQUE constraint failed: tasks.id")
  | None =>
      let row := Task.mk (Task.id t) (Task.title t) (Task.description t)
                   (Task.completed t) (Task.created_at t) (Task.updated_at t)
                   (Task.is_deleted t) (Task.sync_status t) None None in
      put_db (mkStore (<[Task.id t := row]> (tasks s)) (sync_queue s))
  end.

(** INSERT INTO sync_queue (task_id, operation, data, created_at)
    VALUES (?, ?, ?, ?): [id] is NULL, [status] 'pending', [retry_count] 0.
    The foreign key on [task_id] is declared but SQLite does not enforce it
    unless the pragma is switched on, which no source does. *)
Definition insert_queue (task_id : string) (op : Operation) (d : Data)
    (created_at : string) : M unit :=
  let* s := get_db in
  let row := SyncQueueItem.mk None task_id op d q_pending created_at 0 None None in
  put_db (mkStore (tasks s) (sync_queue s ++ [row])).

(** INSERT INTO sync_queue (id, task_id, operation, data) VALUES (?, ?, ?, ?):
    [created_at] defaults to CURRENT_TIMESTAMP, here [db_now]. *)
Definition insert_queue_with_id (id task_id : string) (op : Operation) (d : Data)
    (db_now : string) : M unit :=
  let* s := get_db in
  if bool_decide (Exists (fun r => SyncQueueItem.id r = Some id) (sync_queue s))
  then throw (SqliteConstraint "UNIQUE constraint failed: sync_queue.id")
  else
    let row := SyncQueueItem.mk (Some id) task_id op d q_pending db_now 0 None None in
    put_db (mkStore (tasks s) (sync_queue s ++ [row])).

(** SELECT * FROM tasks WHERE id = ? *)
Definition select_task (id : string) : M (option Task.t) :=
  let* s := get_db in ret (tasks s !! id).

(** UPDATE tasks SET title=?, description=?, completed=?, updated_at=?,
    sync_status=? WHERE id=? *)
Definition update_task_fields (id title description : string) (completed : bool)
    (updated_at : string) (st : SyncStatus) : M unit :=
  let* s := get_db in
  let set (r : Task.t) :=
    Task.mk (Task.id r) title description completed (Task.created_at r)
      updated_at (Task.is_deleted r) st (Task.server_id r) (Task.last_synced_at r) in
  put_db (mkStore (alter set id (tasks s)) (sync_queue s)).

(** UPDATE tasks SET is_deleted=1, updated_at=?, sync_status=? WHERE id=? *)
Definition update_task_deleted (id updated_at : string) (st : SyncStatus) : M unit :=
  let* s := get_db in
  let set (r : Task.t) :=
    Task.mk (Task.id r) (Task.title r) (Task.description r) (Task.completed r)
      (Task.created_at r) updated_at true st (Task.server_id r)
      (Task.last_synced_at r) in
  put_db (mkStore (alter set id (tasks s)) (sync_queue s)).

(** SELECT * FROM tasks WHERE is_deleted = 0
    The order in which SQLite returns the rows is not modelled: the result
    is read as a collection, through membership only. *)
Definition select_tasks_live : M (list Task.t) :=
  let* s := get_db in
  ret (filter (fun r => Task.is_deleted r = false) (map_to_list (tasks s)).*2).

(** SELECT * FROM tasks WHERE sync_status IN ('pending', 'error'); the
    order of the rows is not modelled either. *)
Definition select_tasks_in_status (a b : SyncStatus) : M (list Task.t) :=
  let* s := get_db in
  ret (filter (fun r => Task.sync_status r = a ∨ Task.sync_status r = b)
         (map_to_list (tasks s)).*2).

(** SELECT * FROM sync_queue *)
Definition select_queue : M (list SyncQueueItem.t) :=
  let* s := get_db in ret (sync_queue s).

(** SELECT * FROM sync_queue LIMIT ? *)
Definition select_queue_limit (n : Z) : M (list SyncQueueItem.t) :=
  let* s := get_db in
  if int64 n then ret (limit n (sync_queue s)) else throw mismatch.

(** SELECT * FROM sync_queue WHERE status = 'pending'
    ORDER BY created_at ASC LIMIT ?
    SQLite does not fix the order of rows with equal [created_at]; the model
    takes the one of the merge sort. *)
Definition select_pending (n : Z) : M (list SyncQueueItem.t) :=
  let* s := get_db in
  if int64 n
  then ret (limit n (merge_sort created_le
                       (filter (fun r => is_pending r = true) (sync_queue s))))
  else throw mismatch.

(** UPDATE sync_queue SET status = ?, last_attempt = ?,
    retry_count = retry_count + 1, error_message = ? WHERE id = ?
    A NULL [id] matches no parameter. *)
Definition touch (id : string) (st : QueueStatus) (now : string)
    (msg : option string) (r : SyncQueueItem.t) : SyncQueueItem.t :=
  if bool_decide (SyncQueueItem.id r = Some id)
  then SyncQueueItem.mk (SyncQueueItem.id r) (SyncQueueItem.task_id r)
         (SyncQueueItem.operation r) (SyncQueueItem.data r) st
         (SyncQueueItem.created_at r) (SyncQueueItem.retry_count r + 1) msg (Some now)
  else r.

Definition update_queue_status (id : string) (st : QueueStatus) (now : string)
    (msg : option string) : M unit :=
  let* s := get_db in
  put_db (mkStore (tasks s) (touch id st now msg <$> sync_queue s)).

End Sql.

(** ** src/db/database.ts *)

Module Database.

(** [addToSyncQueue(taskId, operation, payload)]; [id] is the [uuidv4()] it
    draws. *)
Definition addToSyncQueue (id db_now : string) (taskId : string)
    (operation : Operation) (payload : Data) : M unit :=
  Sql.insert_queue_with_id id taskId operation payload db_now.

(** [getSyncQueue(batchSize = 50)]: the rows are mapped field by field to
    [SyncQueueItem] objects. *)
Definition getSyncQueue (batchSize : Z) : M (list SyncQueueItem.t) :=
  let* rows := Sql.select_pending batchSize in
  ret ((fun row => row) <$> rows).

Definition default_batchSize : Z := 50.

(** [errorMessage || null]: undefined and the empty string both give NULL. *)
Definition or_null (errorMessage : option string) : option string :=
  match errorMessage with
  | Some "" => None
  | Some m => Some m
  | None => None
  end.

(** [updateSyncStatus(id, status, errorMessage?)]; [now] is
    [new Date().toISOString()]. *)
Definition updateSyncStatus (now : string) (id : string) (status : QueueStatus)
    (errorMessage : option string) : M unit :=
  Sql.update_queue_status id status now (or_null errorMessage).

End Database.

(** ** src/services/taskService.ts *)

Module TaskService.

(** [String(x)] on a string or undefined. *)
Definition String_ (x : option string) : string :=
  match x with
  | Some s => s
  | None => "undefined"
  end.

(** [a ?? b] *)
Definition nullish {A} (a : option A) (b : A) : A :=
  match a with
  | Some x => x
  | None => b
  end.

(** [createTask(taskData)]; [id] is [uuidv4()], [now] is
    [new Date().toISOString()]. *)
Definition createTask (id now : string) (taskData : PartialTask.t) : M Task.t :=
  let task :=
    Task.mk id
      (String_ (PartialTask.title taskData))
      (nullish (PartialTask.description taskData) "")
      (nullish (PartialTask.completed taskData) false)
      now now false pending None None in
  let* _ := Sql.insert_task task in
  let* _ := Sql.insert_queue (Task.id task) create (DTask task) now in
  ret task.

(** [getTask(id)]: the object built from the row has no [server_id] and no
    [last_synced_at]. *)
Definition getTask (id : string) : M (option Task.t) :=
  let* row := Sql.select_task id in
  match row with
  | None => ret None
  | Some row =>
      ret (Some (Task.mk (Task.id row) (Task.title row) (Task.description row)
                   (Task.completed row) (Task.created_at row) (Task.updated_at row)
                   (Task.is_deleted row) (Task.sync_status row) None None))
  end.

(** [updateTask(id, updates)] *)
Definition updateTask (now : string) (id : string) (updates : PartialTask.t)
    : M (option Task.t) :=
  let* existing := getTask id in
  match existing with
  | None => ret None
  | Some existing =>
      if Task.is_deleted existing then ret None
      else
        let updatedTask :=
          Task.mk (Task.id existing)
            (nullish (PartialTask.title updates) (Task.title existing))
            (nullish (PartialTask.description updates) (Task.description existing))
            (nullish (PartialTask.completed updates) (Task.completed existing))
            (Task.created_at existing) now (Task.is_deleted existing) pending
            (Task.server_id existing) (Task.last_synced_at existing) in
        let* _ := Sql.update_task_fields id (Task.title updatedTask)
                    (Task.description updatedTask) (Task.completed updatedTask)
                    (Task.updated_at updatedTask) (Task.sync_status updatedTask) in
        let* _ := Sql.insert_queue id update (DTask updatedTask)
                    (Task.updated_at updatedTask) in
        ret (Some updatedTask)
  end.

(** [deleteTask(id)] *)
Definition deleteTask (now : string) (id : string) : M bool :=
  let* existing := getTask id in
  match existing with
  | None => ret false
  | Some existing =>
      if Task.is_deleted existing then ret false
      else
        let* _ := Sql.update_task_deleted id now pending in
        let* _ := Sql.insert_queue id delete (DId id) now in
        ret true
  end.

(** The object [getAllTasks] and [getTasksNeedingSync] build from a row: as
    in [getTask], without [server_id] and [last_synced_at]. *)
Definition of_row (row : Task.t) : Task.t :=
  Task.mk (Task.id row) (Task.title row) (Task.description row)
    (Task.completed row) (Task.created_at row) (Task.updated_at row)
    (Task.is_deleted row) (Task.sync_status row) None None.

(** [getAllTasks()] *)
Definition getAllTasks : M (list Task.t) :=
  let* rows := Sql.select_tasks_live in
  ret (of_row <$> rows).

(** [getTasksNeedingSync()] *)
Definition getTasksNeedingSync : M (list Task.t) :=
  let* rows := Sql.select_tasks_in_status pending error in
  ret (of_row <$> rows).

End TaskService.

(** ** src/services/syncService.ts *)

Module Axios.

(** [axios.get('https://example.com/health')] *)
Definition get_health : M unit :=
  fun w =>
    if reachable (net w) then (Ok tt, w)
    else (Threw (NetworkError "ECONNREFUSED"), w).

(** [axios.post('https://example.com/sync', body)]: the request is logged on
    the wire whether it is fulfilled or rejected. *)
Definition post (body : Data) : M Response.t :=
  fun w =>
    let n := net w in
    let r := respond n (length (wire n)) body in
    let w' := set_net (mkNet (reachable n) (respond n) (wire n ++ [(body, r)])) w in
    match r with
    | Fulfilled resp => (Ok resp, w')
    | Rejected e => (Threw e, w')
    end.

End Axios.

Module SyncService.

(** [checkConnectivity()] *)
Definition checkConnectivity : M bool :=
  try_catch (let* _ := Axios.get_health in ret true) (fun _ => ret false).

(** [addToSyncQueue(taskId, operation, data?)]: [data || {}]. *)
Definition addToSyncQueue (now : string) (taskId : string) (operation : Operation)
    (data : option Data) : M unit :=
  Sql.insert_queue taskId operation
    (match data with Some d => d | None => DJson "{}" end) now.

(** One turn of the loop of [sync()]: the locals are
    [(successCount, failCount)]. *)
Definition sync_item (item : SyncQueueItem.t) (counts : nat * nat) : M (nat * nat) :=
  let (successCount, failCount) := counts in
  try_catch
    (let* _ := Axios.post (SyncQueueItem.data item) in
     ret (successCount + 1, failCount))
    (fun err => ret (successCount, failCount + 1)).

(** [sync()] *)
Definition sync : M SyncResult.t :=
  let* queue := Sql.select_queue in
  let* counts := for_of queue sync_item (0, 0) in
  let (successCount, failCount) := counts : nat * nat in
  ret (SyncResult.mk (bool_decide (failCount = 0)) successCount failCount).

(** One turn of the loop of [processSyncQueue]: the local is [failed]. *)
Definition batch_item (item : SyncQueueItem.t) (failed : list string)
    : M (list string) :=
  try_catch
    (let* _ := Axios.post (SyncQueueItem.data item) in ret failed)
    (fun err => ret (failed ++ [SyncQueueItem.task_id item])).

(** [processSyncQueue(batchSize)] *)
Definition processSyncQueue (batchSize : Z) : M BatchResult.t :=
  let* queue := Sql.select_queue_limit batchSize in
  let* failed := for_of queue batch_item [] in
  ret (BatchResult.mk (bool_decide (length failed = 0)) failed).

End SyncService.

(** ** The routers (routes/tasks.ts, routes/sync.ts)

    A handler fulfils with the response it sends: [res.status(c).json(b)],
    or [res.json(b)] with status 200. *)

Module Http.

Inductive Body :=
| JTask (t : Task.t)
| JMessage (message : string)
| JSync (message : string) (success : bool) (failed : list string).

Record Reply := mk {
  status : nat;
  body : Body;
}.

Definition internal_error : Reply := mk 500 (JMessage "Internal Server Error").
Definition not_found : Reply := mk 404 (JMessage "Task not found").

End Http.

Module TaskRouter.

(** [router.post('/')]; [id] and [now] are what [createTask] draws. *)
Definition post (id now : string) (body : PartialTask.t) : M Http.Reply :=
  try_catch
    (let* task := TaskService.createTask id now body in
     ret (Http.mk 201 (Http.JTask task)))
    (fun err => ret Http.internal_error).

(** [router.get('/:id')] *)
Definition get (id : string) : M Http.Reply :=
  try_catch
    (let* task := TaskService.getTask id in
     match task with
     | None => ret Http.not_found
     | Some task => ret (Http.mk 200 (Http.JTask task))
     end)
    (fun err => ret Http.internal_error).

(** [router.put('/:id')] *)
Definition put (now : string) (id : string) (body : PartialTask.t) : M Http.Reply :=
  try_catch
    (let* updated := TaskService.updateTask now id body in
     match updated with
     | None => ret Http.not_found
     | Some updated => ret (Http.mk 200 (Http.JTask updated))
     end)
    (fun err => ret Http.internal_error).

(** [router.delete('/:id')] *)
Definition delete (now : string) (id : string) : M Http.Reply :=
  try_catch
    (let* deleted := TaskService.deleteTask now id in
     if deleted : bool then ret (Http.mk 200 (Http.JMessage "Task deleted"))
     else ret Http.not_found)
    (fun err => ret Http.internal_error).

End TaskRouter.

Module SyncRouter.

(** [router.post('/')]: [batchSize] is [req.body.batchSize], an integer or
    absent; [req.body.batchSize ?? 50]. *)
Definition post (batchSize : option Z) : M Http.Reply :=
  try_catch
    (let batchSize := TaskService.nullish batchSize 50%Z in
     let* result := SyncService.processSyncQueue batchSize in
     ret (Http.mk 200 (Http.JSync "Sync completed" (BatchResult.success result)
                         (BatchResult.failed result))))
    (fun err => ret Http.internal_error).

End SyncRouter.

(** Running a computation. *)
Definition result_of {A} (c : M A) (w : World) : Result A := fst (c w).
Definition world_after {A} (c : M A) (w : World) : World := snd (c w).

(** The world with empty tables and a given remote. *)
Definition boot (up : bool) (remote : nat -> Data -> PostResult) : World :=
  mkWorld (mkStore ∅ []) (mkNet up remote []).

(** ** Observations on a run *)

(** The bodies of the POSTs attempted so far, oldest first. *)
Definition sent (w : World) : list Data := (wire (net w)).*1.

(** The bodies a computation puts on the wire when run from [w]. *)
Definition transmitted_by {A} (c : M A) (w : World) : list Data :=
  drop (length (wire (net w))) (sent (world_after c w)).

(** Modelled from the spec: the configured retry ceiling [maxRetries],
    default 3 (the README has "retried up to 3 times"); no source file
    defines or reads it. *)
Definition maxRetries : nat := 3.

(** A queue row that still awaits a transmission: pending, or failed with
    retries left. *)
Definition unresolved (r : SyncQueueItem.t) : Prop :=
  SyncQueueItem.status r = q_pending ∨
  (SyncQueueItem.status r = q_error ∧ SyncQueueItem.retry_count r < maxRetries).

#[global] Instance unresolved_dec r : Decision (unresolved r).
Proof. unfold unresolved. apply _. Defined.

(** Every queue row points at a stored task.  The foreign key is not
    enforced by SQLite here; the task service keeps it. *)
Definition queue_refs_tasks (s : Store) : Prop :=
  ∀ r, r ∈ sync_queue s → is_Some (tasks s !! SyncQueueItem.task_id r).

(** The status and retry counter of every queue row, in row order. *)
Definition bookkeeping (s : Store) : list (QueueStatus * nat) :=
  (fun r => (SyncQueueItem.status r, SyncQueueItem.retry_count r)) <$> sync_queue s.

(** A loop body that catches every rejection, leaves the database alone and
    puts exactly the row's payload on the wire. *)
Definition only_posts {S} (body : SyncQueueItem.t -> S -> M S) : Prop :=
  ∀ item s w, ∃ s',
    body item s w = (Ok s', snd (Axios.post (SyncQueueItem.data item) w)).

(** *** The properties as the specification words them *)


(** A failed connectivity probe gates the pass: nothing is processed,
    nothing is sent, no retry counter or status moves. *)
Definition probe_gates_sync (w : World) : Prop :=
  result_of SyncService.checkConnectivity w = Ok false →
  ∃ r, result_of SyncService.sync w = Ok r ∧
       SyncResult.synced_items r = 0 ∧ SyncResult.failed_items r = 0 ∧
       transmitted_by SyncService.sync w = [] ∧
       bookkeeping (db (world_after SyncService.sync w)) = bookkeeping (db w).

(** Marking the same outcome twice is the same as marking it once, on the
    status and the retry counter of every row. *)
Definition markOutcome_idempotent (w : World) (id : string) (s : QueueStatus)
    (msg : option string) (now1 now2 : string) : Prop :=
  let w1 := world_after (Database.updateSyncStatus now1 id s msg) w in
  let w2 := world_after (Database.updateSyncStatus now2 id s msg) w1 in
  bookkeeping (db w2) = bookkeeping (db w1).

(** *** Scenarios *)

Module Scenario.

Definition t0 : string := "2024-01-01T00:00:00.000Z".
Definition t1 : string := "2024-01-02T00:00:00.000Z".
Definition t2 : string := "2024-01-03T00:00:00.000Z".

Definition titled (s : string) : PartialTask.t := PartialTask.mk (Some s) None None.

(** Remotes. *)
Definition refuses : nat -> Data -> PostResult :=
  fun _ _ => Rejected (NetworkError "ECONNREFUSED").

Definition accepts_as (remoteId : string) : nat -> Data -> PostResult :=
  fun _ _ => Fulfilled (Response.mk "" (Some remoteId) r_success None None).


(** The remote's copy of task "a", edited there at [t2]. *)
Definition remote_copy : Task.t :=
  Task.mk "a" "B" "" false t0 t2 false synced (Some "R1") None.

(** The first POST is accepted; later ones meet the remote's own edit. *)
Definition reports_conflict : nat -> Data -> PostResult :=
  fun k d => match k with
             | 0 => accepts_as "R1" k d
             | S _ => Fulfilled (Response.mk "" (Some "R1") r_conflict
                                   (Some remote_copy) None)
             end.

(** Task "a" created at [t0] with title "A". *)
Definition created (up : bool) (remote : nat -> Data -> PostResult) : World :=
  world_after (TaskService.createTask "a" t0 (titled "A")) (boot up remote).

(** ... and its title edited at [t1]. *)
Definition created_then_updated (up : bool) (remote : nat -> Data -> PostResult)
    : World :=
  world_after (TaskService.updateTask t1 "a" (titled "A2")) (created up remote).

(** One queue row with identifier "q1", enqueued through the database class. *)
Definition enqueued : World :=
  world_after (Database.addToSyncQueue "q1" "2024-01-01 00:00:00" "a" create (DId "a"))
    (boot true refuses).

(** ... and then marked as synced. *)
Definition settled : World :=
  world_after (Database.updateSyncStatus t1 "q1" q_success None) enqueued.

(** [k] passes of [sync()] one after the other. *)
Fixpoint passes (k : nat) : M (list SyncResult.t) :=
  match k with
  | 0 => ret []
  | S k' =>
      let* r := SyncService.sync in
      let* rs := passes k' in
      ret (r :: rs)
  end.

End Scenario.

(** ** Histories

    The calls that reach the database through the routers and the services:
    the three mutations of the task service and the two passes.  (The reads
    change nothing.) *)

Inductive Call :=
| CreateTask (id now : string) (taskData : PartialTask.t)
| UpdateTask (now id : string) (updates : PartialTask.t)
| DeleteTask (now id : string)
| Sync
| ProcessSyncQueue (batchSize : Z).

Definition call (c : Call) (w : World) : World :=
  match c with
  | CreateTask id now taskData => world_after (TaskService.createTask id now taskData) w
  | UpdateTask now id updates => world_after (TaskService.updateTask now id updates) w
  | DeleteTask now id => world_after (TaskService.deleteTask now id) w
  | Sync => world_after SyncService.sync w
  | ProcessSyncQueue batchSize => world_after (SyncService.processSyncQueue batchSize) w
  end.

(** The world after a list of calls, oldest first. *)
Definition history (cs : list Call) (w : World) : World :=
  foldl (fun w c => call c w) w cs.

(** The time stamp a call reads off the clock, when it reads one. *)
Definition stamp (c : Call) : option string :=
  match c with
  | CreateTask _ now _ | UpdateTask now _ _ | DeleteTask now _ => Some now
  | Sync | ProcessSyncQueue _ => None
  end.

(** The clock never goes back along the calls. *)
Definition clock_le (a b : string) : Prop := String.leb a b = true.

Definition monotone_clock (cs : list Call) : Prop :=
  StronglySorted clock_le (omap stamp cs).

(** Every task row sits under its own identifier. *)
Definition keys_match (s : Store) : Prop :=
  ∀ k row, tasks s !! k = Some row → Task.id row = k.

(** The outcomes of the POSTs a computation attempts, oldest first. *)
Definition outcomes_of {A} (c : M A) (w : World) : list PostResult :=
  drop (length (wire (net w))) (wire (net (world_after c w))).*2.

Definition is_rejected (r : PostResult) : bool :=
  match r with
  | Rejected _ => true
  | Fulfilled _ => false
  end.

(** The merge [updateTask] computes from the stored row. *)
Definition merged (now : string) (updates : PartialTask.t) (row : Task.t) : Task.t :=
  Task.mk (Task.id row)
    (TaskService.nullish (PartialTask.title updates) (Task.title row))
    (TaskService.nullish (PartialTask.description updates) (Task.description row))
    (TaskService.nullish (PartialTask.completed updates) (Task.completed row))
    (Task.created_at row) now false pending None None.

(** A task that [updateTask] and [deleteTask] act on: stored and not
    soft-deleted. *)
Definition live (s : Store) (id : string) (row : Task.t) : Prop :=
  tasks s !! id = Some row ∧ Task.is_deleted row = false.

(** ... and one they refuse: absent, or soft-deleted. *)
Definition gone (s : Store) (id : string) : Prop :=
  tasks s !! id = None ∨
  ∃ row, tasks s !! id = Some row ∧ Task.is_deleted row = true.

(** A queue row nothing has touched since it was inserted by the task
    service: no identifier, pending, never attempted. *)
Definition pristine (r : SyncQueueItem.t) : Prop :=
  SyncQueueItem.id r = None ∧
  SyncQueueItem.status r = q_pending ∧
  SyncQueueItem.retry_count r = 0 ∧
  SyncQueueItem.error_message r = None ∧
  SyncQueueItem.last_attempt r = None.

(** A task row no sync has been recorded on. *)
Definition never_synced (row : Task.t) : Prop :=
  Task.sync_status row = pending ∧
  Task.server_id row = None ∧
  Task.last_synced_at row = None.

(** What may become of a task row: its identifier and creation time stay,
    and a soft-deleted row stays as it is. *)
Definition evolves (row row' : Task.t) : Prop :=
  Task.id row' = Task.id row ∧
  Task.created_at row' = Task.created_at row ∧
  (Task.is_deleted row = true → row' = row).

(** The world after POSTing the payloads of [rows] one after the other, and
    the log of those POSTs. *)
Definition post_all (rows : list SyncQueueItem.t) (w : World) : World :=
  foldl (fun w item => snd (Axios.post (SyncQueueItem.data item) w)) w rows.

Fixpoint attempts (rows : list SyncQueueItem.t) (w : World)
    : list (Data * PostResult) :=
  match rows with
  | [] => []
  | item :: rest =>
      (SyncQueueItem.data item,
       respond (net w) (length (wire (net w))) (SyncQueueItem.data item))
      :: attempts rest (snd (Axios.post (SyncQueueItem.data item) w))
  end.


(** * Properties *)

(** ** Running promises *)

Lemma run_bind {A B} (c : M A) (k : A -> M B) w :
  bind c k w =
  match c w with
  | (Ok a, w') => k a w'
  | (Threw e, w') => (Threw e, w')
  end.
Proof. reflexivity. Qed.

Lemma run_for_of_cons {A S} (item : A) rest (body : A -> S -> M S) s w :
  for_of (item :: rest) body s w =
  match body item s w with
  | (Ok s', w') => for_of rest body s' w'
  | (Threw e, w') => (Threw e, w')
  end.
Proof. reflexivity. Qed.

(** ** The wire *)

Lemma post_db body w : db (snd (Axios.post body w)) = db w.
Proof. unfold Axios.post. by destruct (respond _ _ _). Qed.

Lemma post_sent body w : sent (snd (Axios.post body w)) = sent w ++ [body].
Proof.
  unfold Axios.post, sent. destruct (respond _ _ _); simpl; by rewrite fmap_app.
Qed.

Lemma sent_length w : length (sent w) = length (wire (net w)).
Proof. unfold sent. by rewrite length_fmap. Qed.

Lemma transmitted_by_app {A} (c : M A) w l :
  sent (world_after c w) = sent w ++ l → transmitted_by c w = l.
Proof.
  unfold transmitted_by. intros ->.
  rewrite <- sent_length. by rewrite drop_app_length.
Qed.

(** ** Loops that only talk to the remote *)

Section loops.
Context {S : Type} (body : SyncQueueItem.t -> S -> M S).
Hypothesis body_only_posts : only_posts body.

Lemma for_of_only_posts rows :
  ∀ s w, ∃ s',
    fst (for_of rows body s w) = Ok s' ∧
    db (snd (for_of rows body s w)) = db w ∧
    sent (snd (for_of rows body s w)) = sent w ++ (SyncQueueItem.data <$> rows).
Proof.
  induction rows as [|item rows IH]; intros s w.
  - exists s. simpl. by rewrite app_nil_r.
  - rewrite run_for_of_cons. destruct (body_only_posts item s w) as [s1 ->].
    destruct (IH s1 (snd (Axios.post (SyncQueueItem.data item) w)))
      as (s' & Hres & Hdb & Hsent).
    exists s'. rewrite Hres, Hdb, Hsent, post_db, post_sent.
    by rewrite <- app_assoc.
Qed.

End loops.

Lemma sync_item_only_posts : only_posts SyncService.sync_item.
Proof.
  intros item [s f] w. unfold SyncService.sync_item, try_catch.
  rewrite run_bind. unfold Axios.post.
  destruct (respond _ _ _); simpl; eauto.
Qed.

Lemma batch_item_only_posts : only_posts SyncService.batch_item.
Proof.
  intros item failed w. unfold SyncService.batch_item, try_catch.
  rewrite run_bind. unfold Axios.post.
  destruct (respond _ _ _); simpl; eauto.
Qed.

(** Each row of [sync()] is counted once, as synced or as failed. *)
Lemma sync_item_counts item s f w :
  ∃ s' f', fst (SyncService.sync_item item (s, f) w) = Ok (s', f') ∧
           s' + f' = s + f + 1.
Proof.
  unfold SyncService.sync_item, try_catch. rewrite run_bind. unfold Axios.post.
  destruct (respond _ _ _); simpl; eexists _, _; split; try reflexivity; lia.
Qed.

Lemma for_of_sync_counts rows :
  ∀ s f w, ∃ s' f',
    fst (for_of rows SyncService.sync_item (s, f) w) = Ok (s', f') ∧
    s' + f' = s + f + length rows.
Proof.
  induction rows as [|item rows IH]; intros s f w.
  - exists s, f. simpl. split; [done | lia].
  - rewrite run_for_of_cons.
    destruct (sync_item_counts item s f w) as (s1 & f1 & Hres & Hsum).
    destruct (SyncService.sync_item item (s, f) w) as [[[? ?]|?] w1];
      simpl in Hres; simplify_eq.
    destruct (IH s1 f1 w1) as (s' & f' & Hres' & Hsum').
    exists s', f'. split; [done | simpl; lia].
Qed.

(** What one call of [sync()] does, whatever the world. *)
Lemma sync_run w :
  ∃ r, result_of SyncService.sync w = Ok r ∧
       SyncResult.synced_items r + SyncResult.failed_items r
         = length (sync_queue (db w)) ∧
       db (world_after SyncService.sync w) = db w ∧
       sent (world_after SyncService.sync w)
         = sent w ++ (SyncQueueItem.data <$> sync_queue (db w)).
Proof.
  unfold result_of, world_after, SyncService.sync, Sql.select_queue.
  unfold bind, get_db, ret. simpl.
  destruct (for_of_only_posts _ sync_item_only_posts (sync_queue (db w)) (0, 0) w)
    as (c & Hres & Hdb & Hsent).
  destruct (for_of_sync_counts (sync_queue (db w)) 0 0 w) as (s' & f' & Hres' & Hsum).
  destruct (for_of (sync_queue (db w)) SyncService.sync_item (0, 0) w) as [[[? ?]|?] w1];
    simpl in *; simplify_eq.
  eexists. split; [reflexivity |]. simpl. split; [lia | done].
Qed.

(** A batch size outside the 64-bit range: the SELECT of
    [processSyncQueue] rejects before the loop, nothing is sent. *)
Lemma processSyncQueue_mismatch batchSize w :
  Sql.int64 batchSize = false →
  SyncService.processSyncQueue batchSize w = (Threw Sql.mismatch, w).
Proof.
  intros Hn. unfold SyncService.processSyncQueue, Sql.select_queue_limit.
  unfold bind, get_db, throw. simpl. by rewrite Hn.
Qed.

(** Within the range the SELECT fulfils with the first rows and the loop
    runs on them. *)
Lemma processSyncQueue_in_range batchSize w :
  Sql.int64 batchSize = true →
  SyncService.processSyncQueue batchSize w =
  match for_of (Sql.limit batchSize (sync_queue (db w))) SyncService.batch_item [] w with
  | (Ok failed, w') => (Ok (BatchResult.mk (bool_decide (length failed = 0)) failed), w')
  | (Threw e, w') => (Threw e, w')
  end.
Proof.
  intros Hn. unfold SyncService.processSyncQueue, Sql.select_queue_limit.
  unfold bind, get_db, ret. simpl. by rewrite Hn.
Qed.

(** What one call of [processSyncQueue(batchSize)] does within the range. *)
Lemma processSyncQueue_run batchSize w :
  Sql.int64 batchSize = true →
  ∃ r, result_of (SyncService.processSyncQueue batchSize) w = Ok r ∧
       db (world_after (SyncService.processSyncQueue batchSize) w) = db w ∧
       sent (world_after (SyncService.processSyncQueue batchSize) w)
         = sent w ++ (SyncQueueItem.data <$> Sql.limit batchSize (sync_queue (db w))).
Proof.
  intros Hn. unfold result_of, world_after.
  rewrite (processSyncQueue_in_range batchSize w Hn).
  destruct (for_of_only_posts _ batch_item_only_posts
              (Sql.limit batchSize (sync_queue (db w))) [] w)
    as (c & Hres & Hdb & Hsent).
  destruct (for_of (Sql.limit batchSize (sync_queue (db w))) SyncService.batch_item [] w)
    as [[?|?] w1]; simpl in *; simplify_eq.
  eexists. split; [reflexivity |]. done.
Qed.

(** In either case the tables are left as they were. *)
Lemma processSyncQueue_db batchSize w :
  db (world_after (SyncService.processSyncQueue batchSize) w) = db w.
Proof.
  destruct (Sql.int64 batchSize) eqn:Hn.
  - by destruct (processSyncQueue_run batchSize w Hn) as (r & _ & Hdb & _).
  - unfold world_after. by rewrite (processSyncQueue_mismatch batchSize w Hn).
Qed.

Lemma checkConnectivity_run w :
  SyncService.checkConnectivity w = (Ok (reachable (net w)), w).
Proof.
  unfold SyncService.checkConnectivity, try_catch. rewrite run_bind.
  unfold Axios.get_health. by destruct (reachable (net w)).
Qed.

(** ** The sync pass *)

(** The probe does not gate the pass: with the remote down and one row
    queued, the probe reports unreachable and [sync()] still attempts the row
    and returns one failed item. *)
Lemma probe_does_not_gate_sync :
  ¬ probe_gates_sync (Scenario.created false Scenario.refuses).
Proof.
  intros H. destruct H as (r & Hr & _ & Hfailed & _).
  - vm_compute. reflexivity.
  - vm_compute in Hr. injection Hr as <-. discriminate Hfailed.
Qed.

(** C3, at its failing input. Task "a" is created while the remote is down
    (the health check is refused, and so is every POST).  The probe reports
    the remote unreachable, and [sync()], which never calls the probe, still
    attempts the POST of the queued row and reports one failed item instead
    of zero processed items. *)
Theorem sync_runs_with_remote_down :
  let w := Scenario.created false Scenario.refuses in
  result_of SyncService.checkConnectivity w = Ok false ∧
  result_of SyncService.sync w = Ok (SyncResult.mk false 0 1) ∧
  transmitted_by SyncService.sync w = (SyncQueueItem.data <$> sync_queue (db w)) ∧
  length (transmitted_by SyncService.sync w) = 1.
Proof. vm_compute. repeat split. Qed.



(** C6, at its failing input. The only queue row, "q1", has been marked
    success.  The fetch of the pass ([SELECT * FROM sync_queue LIMIT ?], with
    no filter on the status and no ordering) returns that row, and
    [processSyncQueue] and [sync()] send it again; [getSyncQueue], which does
    select the pending rows in creation order, returns nothing here, but no
    pass and no route calls it. *)
Theorem batch_fetch_returns_settled_row :
  let w := Scenario.settled in
  SyncQueueItem.status <$> sync_queue (db w) = [q_success] ∧
  result_of (Sql.select_queue_limit Database.default_batchSize) w
    = Ok (sync_queue (db w)) ∧
  transmitted_by (SyncService.processSyncQueue Database.default_batchSize) w = [DId "a"] ∧
  transmitted_by SyncService.sync w = [DId "a"] ∧
  result_of (Database.getSyncQueue Database.default_batchSize) w = Ok [].
Proof. vm_compute. repeat split. Qed.

(** ** The queue table *)

(** Bytewise comparison of text is a total preorder. *)
Lemma string_compare_lt_trans (s1 s2 s3 : string) :
  String.compare s1 s2 = Lt → String.compare s2 s3 = Lt → String.compare s1 s3 = Lt.
Proof.
  revert s2 s3. induction s1 as [|a s1 IH]; intros [|b s2] [|c s3]; simpl; try done.
  unfold Ascii.compare.
  destruct (N.compare_spec (Ascii.N_of_ascii a) (Ascii.N_of_ascii b)) as [Hab|Hab|Hab];
    destruct (N.compare_spec (Ascii.N_of_ascii b) (Ascii.N_of_ascii c)) as [Hbc|Hbc|Hbc];
    destruct (N.compare_spec (Ascii.N_of_ascii a) (Ascii.N_of_ascii c)) as [Hac|Hac|Hac];
    try done; try lia.
  apply IH.
Qed.

Lemma string_leb_trans (s1 s2 s3 : string) :
  String.leb s1 s2 = true → String.leb s2 s3 = true → String.leb s1 s3 = true.
Proof.
  unfold String.leb.
  destruct (String.compare s1 s2) eqn:H12; try done;
    destruct (String.compare s2 s3) eqn:H23; try done; intros _ _.
  - apply String.compare_eq_iff in H12 as ->. by rewrite H23.
  - apply String.compare_eq_iff in H12 as ->. by rewrite H23.
  - apply String.compare_eq_iff in H23 as <-. by rewrite H12.
  - by rewrite (string_compare_lt_trans _ _ _ H12 H23).
Qed.

#[global] Instance created_le_total : Total Sql.created_le.
Proof. intros a b. apply String.leb_total. Qed.

#[global] Instance created_le_trans : Transitive Sql.created_le.
Proof. intros a b c. apply string_leb_trans. Qed.

Lemma limit_of_nat {A} (n : nat) (rows : list A) :
  Sql.limit (Z.of_nat n) rows = take n rows.
Proof.
  unfold Sql.limit. destruct (Z.ltb_spec (Z.of_nat n) 0); [lia |].
  by rewrite Nat2Z.id.
Qed.

Lemma getSyncQueue_run batchSize w :
  Sql.int64 batchSize = true →
  Database.getSyncQueue batchSize w =
  (Ok (Sql.limit batchSize
         (merge_sort Sql.created_le
            (filter (fun r => Sql.is_pending r = true) (sync_queue (db w))))), w).
Proof.
  intros Hn. unfold Database.getSyncQueue, Sql.select_pending, bind, get_db, ret.
  simpl. rewrite Hn. by rewrite list_fmap_id.
Qed.

Lemma getSyncQueue_mismatch batchSize w :
  Sql.int64 batchSize = false →
  Database.getSyncQueue batchSize w = (Threw Sql.mismatch, w).
Proof.
  intros Hn. unfold Database.getSyncQueue, Sql.select_pending, bind, get_db, throw.
  simpl. by rewrite Hn.
Qed.

(** What [getSyncQueue(n)] does for a limit [n] that is a row count of the
    64-bit range: it fulfils with the first [n] rows of the pending rows
    taken in ascending order of [created_at] (all of them when there are
    fewer than [n]). *)
Lemma getSyncQueue_batch (w : World) (n : nat) :
  Sql.int64 (Z.of_nat n) = true →
  ∃ batch rest,
    result_of (Database.getSyncQueue (Z.of_nat n)) w = Ok batch ∧
    length batch = n `min` length (filter (fun r => SyncQueueItem.status r = q_pending)
                                    (sync_queue (db w))) ∧
    StronglySorted Sql.created_le (batch ++ rest) ∧
    batch ++ rest ≡ₚ filter (fun r => SyncQueueItem.status r = q_pending)
                       (sync_queue (db w)).
Proof.
  intros Hn. unfold result_of. rewrite (getSyncQueue_run _ w Hn), limit_of_nat. simpl.
  assert (Heq : filter (fun r => Sql.is_pending r = true) (sync_queue (db w))
                = filter (fun r => SyncQueueItem.status r = q_pending) (sync_queue (db w))).
  { apply list_filter_iff. intros r. unfold Sql.is_pending.
    by rewrite bool_decide_eq_true. }
  rewrite Heq.
  set (pend := filter (fun r => SyncQueueItem.status r = q_pending) (sync_queue (db w))).
  exists (take n (merge_sort Sql.created_le pend)),
         (drop n (merge_sort Sql.created_le pend)).
  split; [reflexivity |]. rewrite take_drop. split; [| split].
  - rewrite length_take. by rewrite (Permutation_length (merge_sort_Permutation _ pend)).
  - apply StronglySorted_merge_sort; apply _.
  - apply merge_sort_Permutation.
Qed.

Lemma touch_id id s now msg r :
  SyncQueueItem.id (Sql.touch id s now msg r) = SyncQueueItem.id r.
Proof. unfold Sql.touch. by case_bool_decide. Qed.

Lemma touch_hit id s now msg r :
  SyncQueueItem.id r = Some id →
  SyncQueueItem.status (Sql.touch id s now msg r) = s ∧
  SyncQueueItem.retry_count (Sql.touch id s now msg r) = SyncQueueItem.retry_count r + 1 ∧
  SyncQueueItem.error_message (Sql.touch id s now msg r) = msg.
Proof. intros H. unfold Sql.touch. by rewrite bool_decide_eq_true_2. Qed.

Lemma touch_miss id s now msg r :
  SyncQueueItem.id r ≠ Some id → Sql.touch id s now msg r = r.
Proof. intros H. unfold Sql.touch. by rewrite bool_decide_eq_false_2. Qed.

Lemma updateSyncStatus_run now id s msg w :
  Database.updateSyncStatus now id s msg w =
  (Ok tt, set_db (mkStore (tasks (db w))
                    (Sql.touch id s now (Database.or_null msg) <$> sync_queue (db w))) w).
Proof. reflexivity. Qed.

(** C7, as worded, fails: row "q1" is marked error twice; its retry counter
    is 1 after the first call and 2 after the second. *)
Lemma markOutcome_not_idempotent :
  ¬ markOutcome_idempotent Scenario.enqueued "q1" q_error (Some "boom")
      Scenario.t1 Scenario.t2.
Proof. intros H. vm_compute in H. discriminate H. Qed.

(** C7, amended. When [updateSyncStatus] is called twice in a row with the
    same identifier, status and message, the second call leaves the status
    and the error message of the row as the first call set them, and adds one
    more to its retry counter: the counter counts calls, and rows with
    another identifier are not touched. *)
Theorem updateSyncStatus_twice (w : World) (id : string) (s : QueueStatus)
    (msg : option string) (now1 now2 : string) (i : nat) (r1 : SyncQueueItem.t) :
  let w1 := world_after (Database.updateSyncStatus now1 id s msg) w in
  let w2 := world_after (Database.updateSyncStatus now2 id s msg) w1 in
  sync_queue (db w1) !! i = Some r1 →
  ∃ r2, sync_queue (db w2) !! i = Some r2 ∧
        if decide (SyncQueueItem.id r1 = Some id)
        then SyncQueueItem.status r1 = s ∧
             SyncQueueItem.status r2 = s ∧
             SyncQueueItem.error_message r2 = SyncQueueItem.error_message r1 ∧
             SyncQueueItem.retry_count r2 = SyncQueueItem.retry_count r1 + 1
        else r2 = r1.
Proof.
  intros w1 w2 H1. subst w1 w2. unfold world_after in *.
  rewrite !updateSyncStatus_run in *. simpl in *.
  rewrite list_lookup_fmap in H1.
  destruct (sync_queue (db w) !! i) as [r0|] eqn:H0; simplify_eq/=.
  eexists. split.
  { rewrite !list_lookup_fmap, H0. reflexivity. }
  case_decide as Hid.
  - rewrite touch_id in Hid.
    destruct (touch_hit id s now1 (Database.or_null msg) r0 Hid) as (Hs & _ & Hm).
    destruct (touch_hit id s now2 (Database.or_null msg)
                (Sql.touch id s now1 (Database.or_null msg) r0)) as (Hs' & Hc' & Hm').
    { by rewrite touch_id. }
    by rewrite Hs, Hs', Hc', Hm, Hm'.
  - by apply touch_miss.
Qed.

Lemma updateSyncStatus_twice_witness :
  let w1 := world_after (Database.updateSyncStatus Scenario.t1 "q1" q_error (Some "boom"))
              Scenario.enqueued in
  let w2 := world_after (Database.updateSyncStatus Scenario.t2 "q1" q_error (Some "boom"))
              w1 in
  ∃ r1, sync_queue (db w1) !! 0 = Some r1 ∧
  ∃ r2, sync_queue (db w2) !! 0 = Some r2 ∧
        if decide (SyncQueueItem.id r1 = Some "q1")
        then SyncQueueItem.status r1 = q_error ∧
             SyncQueueItem.status r2 = q_error ∧
             SyncQueueItem.error_message r2 = SyncQueueItem.error_message r1 ∧
             SyncQueueItem.retry_count r2 = SyncQueueItem.retry_count r1 + 1
        else r2 = r1.
Proof.
  intros w1 w2. eexists. split.
  - vm_compute. reflexivity.
  - apply (updateSyncStatus_twice Scenario.enqueued "q1" q_error (Some "boom")
             Scenario.t1 Scenario.t2 0).
    vm_compute. reflexivity.
Defined.

(** ** The task service *)

Lemma filter_none {A} (P : A → Prop) `{!∀ x, Decision (P x)} (l : list A) :
  (∀ x, x ∈ l → ¬ P x) → filter P l = [].
Proof.
  induction l as [|x l IH]; intros Hno; [done |].
  rewrite filter_cons_False by (apply Hno; left).
  apply IH. intros y Hy. apply Hno. by right.
Qed.

Lemma createTask_run id now taskData w :
  tasks (db w) !! id = None →
  let task :=
    Task.mk id (TaskService.String_ (PartialTask.title taskData))
      (TaskService.nullish (PartialTask.description taskData) "")
      (TaskService.nullish (PartialTask.completed taskData) false)
      now now false pending None None in
  TaskService.createTask id now taskData w =
  (Ok task,
   set_db (mkStore (<[id := task]> (tasks (db w)))
             (sync_queue (db w) ++
              [SyncQueueItem.mk None id create (DTask task) q_pending now 0 None None])) w).
Proof.
  intros Hfresh task.
  unfold TaskService.createTask, Sql.insert_task, Sql.insert_queue.
  unfold bind, get_db, put_db, ret. simpl. by rewrite Hfresh.
Qed.

(** A taken identifier makes the INSERT, and with it [createTask], reject;
    nothing is written. *)
Lemma createTask_taken id now taskData w :
  is_Some (tasks (db w) !! id) →
  ∃ e, TaskService.createTask id now taskData w = (Threw e, w).
Proof.
  intros [row Hrow].
  unfold TaskService.createTask, Sql.insert_task, Sql.insert_queue.
  unfold bind, get_db, put_db, ret, throw. simpl. rewrite Hrow. eauto.
Qed.

(** C9. For every input and every fresh identifier, in a store whose queue
    rows all point at stored tasks, [createTask] fulfils with a task whose
    [sync_status] is pending; that task is the stored row, and the queue
    holds exactly one row for its identifier: a pending [create] row, never
    attempted, whose payload is the whole task. *)
Theorem createTask_enqueues_one_create (w : World) (id now : string)
    (taskData : PartialTask.t) :
  queue_refs_tasks (db w) →
  tasks (db w) !! id = None →
  ∃ task,
    result_of (TaskService.createTask id now taskData) w = Ok task ∧
    Task.id task = id ∧
    Task.sync_status task = pending ∧
    tasks (db (world_after (TaskService.createTask id now taskData) w)) !! id
      = Some task ∧
    filter (fun r => SyncQueueItem.task_id r = id)
      (sync_queue (db (world_after (TaskService.createTask id now taskData) w)))
      = [SyncQueueItem.mk None id create (DTask task) q_pending now 0 None None].
Proof.
  intros Hrefs Hfresh. unfold result_of, world_after.
  rewrite (createTask_run id now taskData w Hfresh). simpl.
  eexists. split; [reflexivity |]. repeat split.
  - apply lookup_insert_eq.
  - rewrite filter_app, filter_none.
    + by rewrite filter_cons_True.
    + intros r Hr Heq. apply Hrefs in Hr as [row Hrow]. congruence.
Qed.

Lemma createTask_enqueues_one_create_witness :
  queue_refs_tasks (db (boot true Scenario.refuses)) ∧
  tasks (db (boot true Scenario.refuses)) !! "a" = None ∧
  ∃ task,
    result_of (TaskService.createTask "a" Scenario.t0 (Scenario.titled "A"))
      (boot true Scenario.refuses) = Ok task ∧
    Task.id task = "a" ∧
    Task.sync_status task = pending ∧
    tasks (db (Scenario.created true Scenario.refuses)) !! "a" = Some task ∧
    filter (fun r => SyncQueueItem.task_id r = "a")
      (sync_queue (db (Scenario.created true Scenario.refuses)))
      = [SyncQueueItem.mk None "a" create (DTask task) q_pending Scenario.t0 0 None None].
Proof.
  assert (H0 : queue_refs_tasks (db (boot true Scenario.refuses))).
  { intros r Hr. simpl in Hr. by apply elem_of_nil in Hr. }
  split; [exact H0 |]. split; [reflexivity |].
  apply (createTask_enqueues_one_create (boot true Scenario.refuses) "a" Scenario.t0
           (Scenario.titled "A") H0).
  reflexivity.
Defined.

(** The task service keeps every queue row pointing at a stored task. *)
Lemma boot_refs up remote : queue_refs_tasks (db (boot up remote)).
Proof. intros r Hr. simpl in Hr. by apply elem_of_nil in Hr. Qed.

Lemma createTask_keeps_refs id now taskData w :
  queue_refs_tasks (db w) →
  queue_refs_tasks (db (world_after (TaskService.createTask id now taskData) w)).
Proof.
  intros Hrefs. unfold world_after.
  destruct (tasks (db w) !! id) as [row|] eqn:Hid.
  - destruct (createTask_taken id now taskData w) as [e ->]; [by eexists | done].
  - rewrite (createTask_run id now taskData w Hid). simpl.
    intros r [Hr | Hr%list_elem_of_singleton]%elem_of_app; simpl.
    + apply Hrefs in Hr as [row Hrow].
      destruct (decide (id = SyncQueueItem.task_id r)) as [<-|Hne].
      * by rewrite lookup_insert_eq.
      * by rewrite lookup_insert_ne.
    + subst r. simpl. by rewrite lookup_insert_eq.
Qed.

Lemma updateTask_keeps_refs now id updates w :
  queue_refs_tasks (db w) →
  queue_refs_tasks (db (world_after (TaskService.updateTask now id updates) w)).
Proof.
  intros Hrefs. unfold world_after, TaskService.updateTask, TaskService.getTask.
  unfold Sql.select_task, Sql.update_task_fields, Sql.insert_queue.
  unfold bind, get_db, put_db, ret. simpl.
  destruct (tasks (db w) !! id) as [row|] eqn:Hid; simpl; [|done].
  destruct (Task.is_deleted row); simpl; [done|].
  intros r [Hr | Hr%list_elem_of_singleton]%elem_of_app; simpl.
  - apply Hrefs in Hr as [row' Hrow']. rewrite lookup_alter.
    case_decide; simplify_eq; rewrite ?Hid, ?Hrow'; by eexists.
  - subst r. simpl. rewrite lookup_alter_eq, Hid. by eexists.
Qed.

Lemma deleteTask_keeps_refs now id w :
  queue_refs_tasks (db w) →
  queue_refs_tasks (db (world_after (TaskService.deleteTask now id) w)).
Proof.
  intros Hrefs. unfold world_after, TaskService.deleteTask, TaskService.getTask.
  unfold Sql.select_task, Sql.update_task_deleted, Sql.insert_queue.
  unfold bind, get_db, put_db, ret. simpl.
  destruct (tasks (db w) !! id) as [row|] eqn:Hid; simpl; [|done].
  destruct (Task.is_deleted row); simpl; [done|].
  intros r [Hr | Hr%list_elem_of_singleton]%elem_of_app; simpl.
  - apply Hrefs in Hr as [row' Hrow']. rewrite lookup_alter.
    case_decide; simplify_eq; rewrite ?Hid, ?Hrow'; by eexists.
  - subst r. simpl. rewrite lookup_alter_eq, Hid. by eexists.
Qed.

(** C8, at its failing inputs. [createTask] validates nothing: with the
    title absent it fulfils with a task titled "undefined", with the title
    empty it fulfils with a task whose title is empty, and in both cases the
    task row and one queue row are written. *)
Theorem createTask_accepts_missing_title :
  let w := boot true Scenario.refuses in
  let absent := TaskService.createTask "a" Scenario.t0 (PartialTask.mk None None None) in
  let empty := TaskService.createTask "a" Scenario.t0 (PartialTask.mk (Some "") None None) in
  (result_of absent w
     = Ok (Task.mk "a" "undefined" "" false Scenario.t0 Scenario.t0 false pending None None) ∧
   Task.title <$> tasks (db (world_after absent w)) !! "a" = Some "undefined" ∧
   length (sync_queue (db (world_after absent w))) = 1) ∧
  (result_of empty w
     = Ok (Task.mk "a" "" "" false Scenario.t0 Scenario.t0 false pending None None) ∧
   Task.title <$> tasks (db (world_after empty w)) !! "a" = Some "" ∧
   length (sync_queue (db (world_after empty w))) = 1).
Proof. vm_compute. repeat split. Qed.

(** ** The pass against the documented outcomes *)

(** C4, at its failing input. Task "a" is created and the remote accepts the
    POST with identifier "R1": [sync()] reports one synced item, and the task
    row still has [sync_status] pending, no [server_id] and no
    [last_synced_at]; the queue row is still pending. *)
Theorem success_not_written_back :
  let w := Scenario.created true (Scenario.accepts_as "R1") in
  let w' := world_after SyncService.sync w in
  result_of SyncService.sync w = Ok (SyncResult.mk true 1 0) ∧
  tasks (db w') !! "a"
    = Some (Task.mk "a" "A" "" false Scenario.t0 Scenario.t0 false pending None None) ∧
  bookkeeping (db w') = [(q_pending, 0)].
Proof. vm_compute. repeat split. Qed.

(** C1, at its failing input. Task "a" is updated locally at [t1]; the
    remote answers the update with a conflict whose copy was edited later, at
    [t2], and is titled "B".  [sync()] counts the row as synced; the local
    row keeps its own title and timestamp, and both queue rows stay
    pending. *)
Theorem conflict_left_unresolved :
  let w := Scenario.created_then_updated true Scenario.reports_conflict in
  let w' := world_after SyncService.sync w in
  result_of SyncService.sync w = Ok (SyncResult.mk true 2 0) ∧
  (wire (net w')).*2 !! 1
    = Some (Fulfilled (Response.mk "" (Some "R1") r_conflict
                         (Some Scenario.remote_copy) None)) ∧
  tasks (db w') !! "a"
    = Some (Task.mk "a" "A2" "" false Scenario.t0 Scenario.t1 false pending None None) ∧
  String.ltb Scenario.t1 (Task.updated_at Scenario.remote_copy) = true ∧
  bookkeeping (db w') = [(q_pending, 0); (q_pending, 0)].
Proof. vm_compute. repeat split. Qed.

(** Any number of passes leaves the tables alone and sends every row again
    each time. *)
Lemma passes_run k :
  ∀ w, ∃ rs w',
    Scenario.passes k w = (Ok rs, w') ∧
    length rs = k ∧
    db w' = db w ∧
    length (sent w') = length (sent w) + k * length (sync_queue (db w)).
Proof.
  induction k as [|k IH]; intros w.
  - exists [], w. repeat split; simpl; lia.
  - destruct (sync_run w) as (r & Hr & _ & Hdb & Hsent).
    unfold result_of, world_after in *.
    destruct (SyncService.sync w) as [r0 w1] eqn:Hs; simpl in *; subst r0.
    destruct (IH w1) as (rs & w2 & Hrs & Hlen & Hdb' & Hsent').
    exists (r :: rs), w2. split.
    { change (Scenario.passes (S k)) with
        (let* r := SyncService.sync in
         let* rs := Scenario.passes k in ret (r :: rs)).
      by rewrite run_bind, Hs, run_bind, Hrs. }
    repeat split; simpl.
    + by rewrite Hlen.
    + by rewrite Hdb'.
    + rewrite Hsent', Hsent, length_app, length_fmap, Hdb. lia.
Qed.

(** C5, at its failing input. Task "a" is created and the remote rejects
    every POST.  After one pass more than the retry ceiling, each pass has
    reported the row as failed, the row has been sent every time, its retry
    counter is still 0 and its status still pending, and [getSyncQueue]
    still returns it. *)
Theorem failed_row_retried_without_bound :
  let w := Scenario.created true Scenario.refuses in
  let w' := world_after (Scenario.passes (S maxRetries)) w in
  result_of (Scenario.passes (S maxRetries)) w
    = Ok (replicate (S maxRetries) (SyncResult.mk false 0 1)) ∧
  length (transmitted_by (Scenario.passes (S maxRetries)) w) = S maxRetries ∧
  bookkeeping (db w') = [(q_pending, 0)] ∧
  result_of (Database.getSyncQueue Database.default_batchSize) w'
    = Ok (sync_queue (db w)).
Proof. vm_compute. repeat split. Qed.

(** * Further properties of the code *)

(** ** Task service: reads and writes of one task *)

Lemma getTask_run id w :
  TaskService.getTask id w = (Ok (TaskService.of_row <$> tasks (db w) !! id), w).
Proof.
  unfold TaskService.getTask, Sql.select_task, bind, get_db, ret. simpl.
  by destruct (tasks (db w) !! id).
Qed.

Lemma updateTask_run_live now id updates w row :
  tasks (db w) !! id = Some row →
  Task.is_deleted row = false →
  TaskService.updateTask now id updates w =
  (Ok (Some (merged now updates row)),
   set_db (mkStore
             (<[id := Task.mk (Task.id row)
                        (Task.title (merged now updates row))
                        (Task.description (merged now updates row))
                        (Task.completed (merged now updates row))
                        (Task.created_at row) now false pending
                        (Task.server_id row) (Task.last_synced_at row)]> (tasks (db w)))
             (sync_queue (db w) ++
              [SyncQueueItem.mk None id update (DTask (merged now updates row))
                 q_pending now 0 None None])) w).
Proof.
  intros Hrow Hlive.
  unfold TaskService.updateTask. rewrite run_bind, getTask_run, Hrow. simpl.
  rewrite Hlive.
  unfold Sql.update_task_fields, Sql.insert_queue, bind, get_db, put_db, ret. simpl.
  unfold set_db, merged. simpl. do 3 f_equal.
  apply map_eq. intros k. rewrite lookup_alter, lookup_insert.
  repeat case_decide; simplify_eq; rewrite ?Hrow; simpl; rewrite ?Hlive; done.
Qed.

Lemma updateTask_run_dead now id updates w :
  (tasks (db w) !! id = None ∨
   ∃ row, tasks (db w) !! id = Some row ∧ Task.is_deleted row = true) →
  TaskService.updateTask now id updates w = (Ok None, w).
Proof.
  intros H. unfold TaskService.updateTask. rewrite run_bind, getTask_run.
  destruct H as [-> | (row & -> & Hdel)]; simpl; [done |]. by rewrite Hdel.
Qed.

Lemma deleteTask_run_live now id w row :
  tasks (db w) !! id = Some row →
  Task.is_deleted row = false →
  TaskService.deleteTask now id w =
  (Ok true,
   set_db (mkStore
             (<[id := Task.mk (Task.id row) (Task.title row) (Task.description row)
                        (Task.completed row) (Task.created_at row) now true pending
                        (Task.server_id row) (Task.last_synced_at row)]> (tasks (db w)))
             (sync_queue (db w) ++
              [SyncQueueItem.mk None id delete (DId id) q_pending now 0 None None])) w).
Proof.
  intros Hrow Hlive.
  unfold TaskService.deleteTask. rewrite run_bind, getTask_run, Hrow. simpl.
  rewrite Hlive.
  unfold Sql.update_task_deleted, Sql.insert_queue, bind, get_db, put_db, ret. simpl.
  unfold set_db. simpl. do 3 f_equal.
  apply map_eq. intros k. rewrite lookup_alter, lookup_insert.
  repeat case_decide; simplify_eq; rewrite ?Hrow; simpl; done.
Qed.

Lemma deleteTask_run_dead now id w :
  (tasks (db w) !! id = None ∨
   ∃ row, tasks (db w) !! id = Some row ∧ Task.is_deleted row = true) →
  TaskService.deleteTask now id w = (Ok false, w).
Proof.
  intros H. unfold TaskService.deleteTask. rewrite run_bind, getTask_run.
  destruct H as [-> | (row & -> & Hdel)]; simpl; [done |]. by rewrite Hdel.
Qed.

(** X1. [updateTask] on an identifier that is absent, or whose task is
    soft-deleted, fulfils with null and writes nothing: no task row changes
    and no queue row is appended. *)
Theorem updateTask_refuses_gone (w : World) (now id : string) (updates : PartialTask.t) :
  gone (db w) id →
  TaskService.updateTask now id updates w = (Ok None, w).
Proof. apply updateTask_run_dead. Qed.

Lemma updateTask_refuses_gone_witness :
  gone (db (boot true Scenario.refuses)) "a" ∧
  TaskService.updateTask Scenario.t1 "a" (Scenario.titled "B") (boot true Scenario.refuses)
    = (Ok None, boot true Scenario.refuses).
Proof.
  assert (H : gone (db (boot true Scenario.refuses)) "a") by (left; reflexivity).
  split; [exact H |].
  apply (updateTask_refuses_gone (boot true Scenario.refuses) Scenario.t1 "a"
           (Scenario.titled "B") H).
Defined.

(** X2. [updateTask] on a live task merges only the supplied fields: each of
    title, description and completed is the supplied value when there is one
    and the stored value otherwise; the identifier and [created_at] are kept,
    [updated_at] is the time of the call and [sync_status] is reset to
    pending.  The task it returns is the task [getTask] reads back. *)
Theorem updateTask_then_getTask (w : World) (now id : string)
    (updates : PartialTask.t) (row : Task.t) :
  live (db w) id row →
  ∃ t,
    result_of (TaskService.updateTask now id updates) w = Ok (Some t) ∧
    result_of (TaskService.getTask id)
      (world_after (TaskService.updateTask now id updates) w) = Ok (Some t) ∧
    Task.id t = Task.id row ∧
    Task.created_at t = Task.created_at row ∧
    Task.updated_at t = now ∧
    Task.sync_status t = pending ∧
    Task.is_deleted t = false ∧
    Task.title t = default (Task.title row) (PartialTask.title updates) ∧
    Task.description t = default (Task.description row) (PartialTask.description updates) ∧
    Task.completed t = default (Task.completed row) (PartialTask.completed updates).
Proof.
  intros [Hrow Hlive]. exists (merged now updates row).
  unfold result_of, world_after.
  rewrite (updateTask_run_live now id updates w row Hrow Hlive). simpl.
  split; [done |]. split.
  { rewrite getTask_run. simpl. by rewrite lookup_insert_eq. }
  repeat split; by destruct updates as [[?|] [?|] [?|]].
Qed.

Lemma updateTask_then_getTask_witness :
  let w := Scenario.created true Scenario.refuses in
  let row := Task.mk "a" "A" "" false Scenario.t0 Scenario.t0 false pending None None in
  live (db w) "a" row ∧
  ∃ t,
    result_of (TaskService.updateTask Scenario.t1 "a" (Scenario.titled "B")) w
      = Ok (Some t) ∧
    result_of (TaskService.getTask "a")
      (world_after (TaskService.updateTask Scenario.t1 "a" (Scenario.titled "B")) w)
      = Ok (Some t) ∧
    Task.id t = Task.id row ∧
    Task.created_at t = Task.created_at row ∧
    Task.updated_at t = Scenario.t1 ∧
    Task.sync_status t = pending ∧
    Task.is_deleted t = false ∧
    Task.title t = default (Task.title row) (PartialTask.title (Scenario.titled "B")) ∧
    Task.description t
      = default (Task.description row) (PartialTask.description (Scenario.titled "B")) ∧
    Task.completed t
      = default (Task.completed row) (PartialTask.completed (Scenario.titled "B")).
Proof.
  intros w row.
  assert (H : live (db w) "a" row) by (split; reflexivity).
  split; [exact H |].
  apply (updateTask_then_getTask w Scenario.t1 "a" (Scenario.titled "B") row H).
Defined.

(** X3. [updateTask] on a live task appends exactly one queue row, after the
    rows already there: a pending [update] row for that task, stamped with
    the time of the call, whose payload is the task it returns.  The
    [server_id] and [last_synced_at] of the stored row are kept, and no
    other task row changes. *)
Theorem updateTask_enqueues_snapshot (w : World) (now id : string)
    (updates : PartialTask.t) (row : Task.t) :
  live (db w) id row →
  let w' := world_after (TaskService.updateTask now id updates) w in
  ∃ t row',
    result_of (TaskService.updateTask now id updates) w = Ok (Some t) ∧
    sync_queue (db w') = sync_queue (db w) ++
      [SyncQueueItem.mk None id update (DTask t) q_pending now 0 None None] ∧
    tasks (db w') !! id = Some row' ∧
    TaskService.of_row row' = t ∧
    Task.server_id row' = Task.server_id row ∧
    Task.last_synced_at row' = Task.last_synced_at row ∧
    ∀ k, k ≠ id → tasks (db w') !! k = tasks (db w) !! k.
Proof.
  intros [Hrow Hlive] w'. subst w'. unfold result_of, world_after.
  rewrite (updateTask_run_live now id updates w row Hrow Hlive). simpl.
  eexists _, _. split; [reflexivity |]. split; [reflexivity |].
  split; [apply lookup_insert_eq |]. repeat split.
  intros k Hk. by rewrite lookup_insert_ne.
Qed.

Lemma updateTask_enqueues_snapshot_witness :
  let w := Scenario.created true Scenario.refuses in
  let row := Task.mk "a" "A" "" false Scenario.t0 Scenario.t0 false pending None None in
  let w' := world_after (TaskService.updateTask Scenario.t1 "a" (Scenario.titled "B")) w in
  live (db w) "a" row ∧
  ∃ t row',
    result_of (TaskService.updateTask Scenario.t1 "a" (Scenario.titled "B")) w
      = Ok (Some t) ∧
    sync_queue (db w') = sync_queue (db w) ++
      [SyncQueueItem.mk None "a" update (DTask t) q_pending Scenario.t1 0 None None] ∧
    tasks (db w') !! "a" = Some row' ∧
    TaskService.of_row row' = t ∧
    Task.server_id row' = Task.server_id row ∧
    Task.last_synced_at row' = Task.last_synced_at row ∧
    ∀ k, k ≠ "a" → tasks (db w') !! k = tasks (db w) !! k.
Proof.
  intros w row w'.
  assert (H : live (db w) "a" row) by (split; reflexivity).
  split; [exact H |].
  apply (updateTask_enqueues_snapshot w Scenario.t1 "a" (Scenario.titled "B") row H).
Defined.

(** X4. [deleteTask] on an identifier that is absent, or whose task is
    already soft-deleted, fulfils with false and writes nothing. *)
Theorem deleteTask_refuses_gone (w : World) (now id : string) :
  gone (db w) id →
  TaskService.deleteTask now id w = (Ok false, w).
Proof. apply deleteTask_run_dead. Qed.

Lemma deleteTask_refuses_gone_witness :
  gone (db (boot true Scenario.refuses)) "a" ∧
  TaskService.deleteTask Scenario.t1 "a" (boot true Scenario.refuses)
    = (Ok false, boot true Scenario.refuses).
Proof.
  assert (H : gone (db (boot true Scenario.refuses)) "a") by (left; reflexivity).
  split; [exact H |].
  apply (deleteTask_refuses_gone (boot true Scenario.refuses) Scenario.t1 "a" H).
Defined.

(** X5. [deleteTask] on a live task is a soft delete: it fulfils with true,
    the row stays in the table and [getTask] still returns the task, now
    with [is_deleted] set, [sync_status] pending and [updated_at] the time of
    the call, its other fields as before; one pending [delete] row whose
    payload is the identifier alone is appended to the queue. *)
Theorem deleteTask_soft_deletes (w : World) (now id : string) (row : Task.t) :
  live (db w) id row →
  let w' := world_after (TaskService.deleteTask now id) w in
  result_of (TaskService.deleteTask now id) w = Ok true ∧
  result_of (TaskService.getTask id) w'
    = Ok (Some (Task.mk (Task.id row) (Task.title row) (Task.description row)
                  (Task.completed row) (Task.created_at row) now true pending
                  None None)) ∧
  sync_queue (db w') = sync_queue (db w) ++
    [SyncQueueItem.mk None id delete (DId id) q_pending now 0 None None] ∧
  ∀ k, k ≠ id → tasks (db w') !! k = tasks (db w) !! k.
Proof.
  intros [Hrow Hlive] w'. subst w'. unfold result_of, world_after.
  rewrite (deleteTask_run_live now id w row Hrow Hlive). simpl.
  split; [done |]. split.
  { rewrite getTask_run. simpl. by rewrite lookup_insert_eq. }
  split; [done |]. intros k Hk. by rewrite lookup_insert_ne.
Qed.

Lemma deleteTask_soft_deletes_witness :
  let w := Scenario.created true Scenario.refuses in
  let row := Task.mk "a" "A" "" false Scenario.t0 Scenario.t0 false pending None None in
  let w' := world_after (TaskService.deleteTask Scenario.t1 "a") w in
  live (db w) "a" row ∧
  result_of (TaskService.deleteTask Scenario.t1 "a") w = Ok true ∧
  result_of (TaskService.getTask "a") w'
    = Ok (Some (Task.mk (Task.id row) (Task.title row) (Task.description row)
                  (Task.completed row) (Task.created_at row) Scenario.t1 true pending
                  None None)) ∧
  sync_queue (db w') = sync_queue (db w) ++
    [SyncQueueItem.mk None "a" delete (DId "a") q_pending Scenario.t1 0 None None] ∧
  ∀ k, k ≠ "a" → tasks (db w') !! k = tasks (db w) !! k.
Proof.
  intros w row w'.
  assert (H : live (db w) "a" row) by (split; reflexivity).
  split; [exact H |].
  apply (deleteTask_soft_deletes w Scenario.t1 "a" row H).
Defined.

Lemma gone_after_deleteTask now id w :
  gone (db (world_after (TaskService.deleteTask now id) w)) id.
Proof.
  unfold world_after.
  destruct (tasks (db w) !! id) as [row|] eqn:Hrow.
  - destruct (Task.is_deleted row) eqn:Hdel.
    + rewrite deleteTask_run_dead by (right; eauto). right. eauto.
    + rewrite (deleteTask_run_live now id w row Hrow Hdel). simpl.
      right. eexists. split; [apply lookup_insert_eq | done].
  - rewrite deleteTask_run_dead by (by left). by left.
Qed.

(** X6. Deleting twice: whatever the store, a second [deleteTask] of the
    same identifier fulfils with false and writes nothing, so a task is
    enqueued for deletion at most once. *)
Theorem deleteTask_twice (w : World) (now1 now2 id : string) :
  let w1 := world_after (TaskService.deleteTask now1 id) w in
  TaskService.deleteTask now2 id w1 = (Ok false, w1).
Proof. intros w1. apply deleteTask_run_dead, gone_after_deleteTask. Qed.

(** X7. A soft-deleted task takes no further edits: whatever the store,
    after [deleteTask] of an identifier, [updateTask] of that identifier
    fulfils with null and writes nothing. *)
Theorem updateTask_after_deleteTask (w : World) (now1 now2 id : string)
    (updates : PartialTask.t) :
  let w1 := world_after (TaskService.deleteTask now1 id) w in
  TaskService.updateTask now2 id updates w1 = (Ok None, w1).
Proof. intros w1. apply updateTask_run_dead, gone_after_deleteTask. Qed.

(** X8. A taken identifier: when a task row already has the identifier
    [createTask] draws, the INSERT violates the primary key, [createTask]
    rejects, and neither a task row nor a queue row is written (the stored
    task is not overwritten). *)
Theorem createTask_rejects_taken_id (w : World) (id now : string)
    (taskData : PartialTask.t) :
  is_Some (tasks (db w) !! id) →
  TaskService.createTask id now taskData w
    = (Threw (SqliteConstraint "UNIQUE constraint failed: tasks.id"), w).
Proof.
  intros [row Hrow].
  unfold TaskService.createTask, Sql.insert_task, Sql.insert_queue.
  unfold bind, get_db, put_db, ret, throw. simpl. by rewrite Hrow.
Qed.

Lemma createTask_rejects_taken_id_witness :
  let w := Scenario.created true Scenario.refuses in
  is_Some (tasks (db w) !! "a") ∧
  TaskService.createTask "a" Scenario.t1 (Scenario.titled "B") w
    = (Threw (SqliteConstraint "UNIQUE constraint failed: tasks.id"), w).
Proof.
  intros w.
  assert (H : is_Some (tasks (db w) !! "a")) by (eexists; reflexivity).
  split; [exact H |].
  apply (createTask_rejects_taken_id w "a" Scenario.t1 (Scenario.titled "B") H).
Defined.

(** X9. Create then read: for a fresh identifier, [getTask] after
    [createTask] returns the task [createTask] returned, and the tasks under
    other identifiers read as before. *)
Theorem createTask_then_getTask (w : World) (id now : string)
    (taskData : PartialTask.t) :
  tasks (db w) !! id = None →
  let w' := world_after (TaskService.createTask id now taskData) w in
  ∃ task,
    result_of (TaskService.createTask id now taskData) w = Ok task ∧
    result_of (TaskService.getTask id) w' = Ok (Some task) ∧
    ∀ k, k ≠ id → result_of (TaskService.getTask k) w' = result_of (TaskService.getTask k) w.
Proof.
  intros Hfresh w'. subst w'. unfold result_of, world_after.
  rewrite (createTask_run id now taskData w Hfresh). simpl.
  eexists. split; [reflexivity |]. split.
  - rewrite getTask_run. simpl. by rewrite lookup_insert_eq.
  - intros k Hk. rewrite !getTask_run. simpl. by rewrite lookup_insert_ne.
Qed.

Lemma createTask_then_getTask_witness :
  let w := boot true Scenario.refuses in
  let w' := world_after (TaskService.createTask "a" Scenario.t0 (Scenario.titled "A")) w in
  tasks (db w) !! "a" = None ∧
  ∃ task,
    result_of (TaskService.createTask "a" Scenario.t0 (Scenario.titled "A")) w = Ok task ∧
    result_of (TaskService.getTask "a") w' = Ok (Some task) ∧
    ∀ k, k ≠ "a" → result_of (TaskService.getTask k) w' = result_of (TaskService.getTask k) w.
Proof.
  intros w w'. split; [reflexivity |].
  apply (createTask_then_getTask w "a" Scenario.t0 (Scenario.titled "A")).
  reflexivity.
Defined.

(** ** Histories of calls *)

(** The four things a call does to the tables. *)
Lemma call_db c w :
  db (call c w) = db w ∨
  (∃ id now taskData,
     c = CreateTask id now taskData ∧ tasks (db w) !! id = None ∧
     db (call c w) =
       mkStore (<[id := Task.mk id (TaskService.String_ (PartialTask.title taskData))
                          (TaskService.nullish (PartialTask.description taskData) "")
                          (TaskService.nullish (PartialTask.completed taskData) false)
                          now now false pending None None]> (tasks (db w)))
         (sync_queue (db w) ++
          [SyncQueueItem.mk None id create
             (DTask (Task.mk id (TaskService.String_ (PartialTask.title taskData))
                       (TaskService.nullish (PartialTask.description taskData) "")
                       (TaskService.nullish (PartialTask.completed taskData) false)
                       now now false pending None None))
             q_pending now 0 None None])) ∨
  (∃ now id updates row,
     c = UpdateTask now id updates ∧ live (db w) id row ∧
     db (call c w) =
       mkStore (<[id := Task.mk (Task.id row)
                          (Task.title (merged now updates row))
                          (Task.description (merged now updates row))
                          (Task.completed (merged now updates row))
                          (Task.created_at row) now false pending
                          (Task.server_id row) (Task.last_synced_at row)]> (tasks (db w)))
         (sync_queue (db w) ++
          [SyncQueueItem.mk None id update (DTask (merged now updates row))
             q_pending now 0 None None])) ∨
  (∃ now id row,
     c = DeleteTask now id ∧ live (db w) id row ∧
     db (call c w) =
       mkStore (<[id := Task.mk (Task.id row) (Task.title row) (Task.description row)
                          (Task.completed row) (Task.created_at row) now true pending
                          (Task.server_id row) (Task.last_synced_at row)]> (tasks (db w)))
         (sync_queue (db w) ++
          [SyncQueueItem.mk None id delete (DId id) q_pending now 0 None None])).
Proof.
  destruct c as [id now taskData | now id updates | now id | | batchSize];
    unfold call, world_after.
  - destruct (tasks (db w) !! id) as [row|] eqn:Hid.
    + left. destruct (createTask_taken id now taskData w) as [e ->]; [by eexists | done].
    + right; left. exists id, now, taskData. repeat split; [done |].
      by rewrite (createTask_run id now taskData w Hid).
  - destruct (tasks (db w) !! id) as [row|] eqn:Hid;
      [destruct (Task.is_deleted row) eqn:Hdel |].
    + left. rewrite updateTask_run_dead; [done | right; eauto].
    + right; right; left. exists now, id, updates, row. repeat split; try done.
      by rewrite (updateTask_run_live now id updates w row Hid Hdel).
    + left. rewrite updateTask_run_dead; [done | by left].
  - destruct (tasks (db w) !! id) as [row|] eqn:Hid;
      [destruct (Task.is_deleted row) eqn:Hdel |].
    + left. rewrite deleteTask_run_dead; [done | right; eauto].
    + right; right; right. exists now, id, row. repeat split; try done.
      by rewrite (deleteTask_run_live now id w row Hid Hdel).
    + left. rewrite deleteTask_run_dead; [done | by left].
  - left. by destruct (sync_run w) as (r & _ & _ & Hdb & _).
  - left. apply processSyncQueue_db.
Qed.

(** A call leaves the queue as it is or appends one pristine row stamped
    with the time of the call. *)
Lemma call_queue c w :
  sync_queue (db (call c w)) = sync_queue (db w) ∨
  ∃ now r, stamp c = Some now ∧ SyncQueueItem.created_at r = now ∧ pristine r ∧
           is_Some (tasks (db (call c w)) !! SyncQueueItem.task_id r) ∧
           sync_queue (db (call c w)) = sync_queue (db w) ++ [r].
Proof.
  destruct (call_db c w) as
    [-> | [(id & now & td & -> & _ & ->) | [(now & id & up & row & -> & _ & ->)
         | (now & id & row & -> & _ & ->)]]]; [by left | right..];
    (exists now; eexists; simpl;
     refine (conj eq_refl (conj _ (conj _ (conj _ eq_refl))));
     [done | by repeat split | by rewrite lookup_insert_eq]).
Qed.

Lemma evolves_refl row : evolves row row.
Proof. by repeat split. Qed.

Lemma evolves_trans r1 r2 r3 : evolves r1 r2 → evolves r2 r3 → evolves r1 r3.
Proof.
  intros (Hid & Hc & Hd) (Hid' & Hc' & Hd'). repeat split; try congruence.
  intros Hdel. specialize (Hd Hdel). subst r2. auto.
Qed.

Lemma call_tasks c w k row :
  tasks (db w) !! k = Some row →
  ∃ row', tasks (db (call c w)) !! k = Some row' ∧ evolves row row' ∧
          (never_synced row → never_synced row').
Proof.
  intros Hk.
  destruct (call_db c w) as
    [-> | [(id & now & td & -> & Hid & ->) | [(now & id & up & row0 & -> & [Hid Hlive] & ->)
         | (now & id & row0 & -> & [Hid Hlive] & ->)]]]; simpl.
  - exists row. auto using evolves_refl.
  - exists row. rewrite lookup_insert_ne by congruence. auto using evolves_refl.
  - destruct (decide (id = k)) as [->|Hne].
    + simplify_eq. eexists. rewrite lookup_insert_eq. split; [done |].
      split; [repeat split; simpl; congruence |].
      intros (_ & ? & ?). by repeat split.
    + exists row. rewrite lookup_insert_ne by done. auto using evolves_refl.
  - destruct (decide (id = k)) as [->|Hne].
    + simplify_eq. eexists. rewrite lookup_insert_eq. split; [done |].
      split; [repeat split; simpl; congruence |].
      intros (_ & ? & ?). by repeat split.
    + exists row. rewrite lookup_insert_ne by done. auto using evolves_refl.
Qed.

(** A row a call adds to the task table is new under its key, sits under
    its own identifier and is not synced. *)
Lemma call_new_task c w k row' :
  tasks (db w) !! k = None →
  tasks (db (call c w)) !! k = Some row' →
  Task.id row' = k ∧ never_synced row'.
Proof.
  intros Hk.
  destruct (call_db c w) as
    [-> | [(id & now & td & -> & Hid & ->) | [(now & id & up & row0 & -> & [Hid Hlive] & ->)
         | (now & id & row0 & -> & [Hid Hlive] & ->)]]]; simpl; intros Hk'.
  - congruence.
  - destruct (decide (id = k)) as [->|Hne].
    + rewrite lookup_insert_eq in Hk'. simplify_eq. by repeat split.
    + rewrite lookup_insert_ne in Hk' by done. congruence.
  - destruct (decide (id = k)) as [->|Hne]; [congruence |].
    rewrite lookup_insert_ne in Hk' by done. congruence.
  - destruct (decide (id = k)) as [->|Hne]; [congruence |].
    rewrite lookup_insert_ne in Hk' by done. congruence.
Qed.

Lemma history_snoc cs c w : history (cs ++ [c]) w = call c (history cs w).
Proof. unfold history. by rewrite foldl_app. Qed.

(** X10. Task rows are never removed, renamed or revived: a task row stored
    before a list of calls (task mutations and sync passes) is still stored
    under the same key after it, with the same identifier and creation time;
    and if it was soft-deleted before, it is exactly the same row after. *)
Theorem history_keeps_tasks (cs : list Call) (w : World) (k : string) (row : Task.t) :
  tasks (db w) !! k = Some row →
  ∃ row', tasks (db (history cs w)) !! k = Some row' ∧ evolves row row'.
Proof.
  intros Hk. induction cs as [|c cs IH] using rev_ind.
  - exists row. split; [done | apply evolves_refl].
  - destruct IH as (row1 & H1 & Hev). rewrite history_snoc.
    destruct (call_tasks c (history cs w) k row1 H1) as (row2 & H2 & Hev' & _).
    exists row2. split; [done |]. by eapply evolves_trans.
Qed.

Lemma history_keeps_tasks_witness :
  let w := Scenario.created true Scenario.refuses in
  let row := Task.mk "a" "A" "" false Scenario.t0 Scenario.t0 false pending None None in
  let cs := [UpdateTask Scenario.t1 "a" (Scenario.titled "B"); Sync;
             DeleteTask Scenario.t2 "a"] in
  tasks (db w) !! "a" = Some row ∧
  ∃ row', tasks (db (history cs w)) !! "a" = Some row' ∧ evolves row row'.
Proof.
  intros w row cs. split; [reflexivity |].
  apply (history_keeps_tasks cs w "a" row). reflexivity.
Defined.

(** X11. The queue is append-only: after any list of calls the queue table
    starts with the rows it had before, unchanged and in the same order. *)
Theorem history_queue_append_only (cs : list Call) (w : World) :
  sync_queue (db w) `prefix_of` sync_queue (db (history cs w)).
Proof.
  induction cs as [|c cs IH] using rev_ind; [done |].
  rewrite history_snoc. etrans; [exact IH |].
  destruct (call_queue c (history cs w)) as [-> | (now & r & _ & _ & _ & _ & ->)];
    [done | by apply prefix_app_r].
Qed.

Lemma call_keeps_pristine c w :
  Forall (fun r => pristine r ∧ is_Some (tasks (db w) !! SyncQueueItem.task_id r))
    (sync_queue (db w)) →
  Forall (fun r => pristine r ∧
            is_Some (tasks (db (call c w)) !! SyncQueueItem.task_id r))
    (sync_queue (db (call c w))).
Proof.
  intros IH.
  assert (Hold : Forall (fun r => pristine r ∧
                   is_Some (tasks (db (call c w)) !! SyncQueueItem.task_id r))
                   (sync_queue (db w))).
  { eapply Forall_impl; [exact IH |]. intros r [Hp [row Hrow]]. split; [done |].
    destruct (call_tasks c w _ row Hrow) as (row' & -> & _). by eexists. }
  destruct (call_queue c w) as [-> | (now & r & _ & _ & Hp & Href & ->)]; [done |].
  apply Forall_app. split; [done |]. apply Forall_singleton. by split.
Qed.

(** X12. From empty tables, after any list of calls, every task row sits
    under its own identifier and has never been recorded as synced:
    [sync_status] is pending, [server_id] and [last_synced_at] are NULL,
    however many passes ran and whatever the remote answered. *)
Theorem history_tasks_never_synced (cs : list Call) (up : bool)
    (remote : nat -> Data -> PostResult) :
  map_Forall (fun k row => Task.id row = k ∧ never_synced row)
    (tasks (db (history cs (boot up remote)))).
Proof.
  induction cs as [|c cs IH] using rev_ind.
  - intros k row Hk. simpl in Hk. by rewrite lookup_empty in Hk.
  - rewrite history_snoc. intros k row' Hk'.
    destruct (tasks (db (history cs (boot up remote))) !! k) as [row|] eqn:Hk.
    + destruct (IH k row Hk) as [Hid Hns].
      destruct (call_tasks c _ k row Hk) as (row2 & H2 & (Hid2 & _) & Hns2).
      simplify_eq. split; [congruence | auto].
    + by eapply call_new_task.
Qed.

(** X13. From empty tables, after any list of calls, every queue row is as
    the task service inserted it (identifier NULL, status pending, retry
    counter 0, no error message, no last attempt) and names a stored task. *)
Theorem history_queue_rows_pristine (cs : list Call) (up : bool)
    (remote : nat -> Data -> PostResult) :
  let s := db (history cs (boot up remote)) in
  Forall (fun r => pristine r ∧ is_Some (tasks s !! SyncQueueItem.task_id r))
    (sync_queue s).
Proof.
  induction cs as [|c cs IH] using rev_ind; [by constructor |].
  simpl in *. rewrite history_snoc. by apply call_keeps_pristine.
Qed.

(** X14. [updateSyncStatus] cannot mark what the task service enqueued: the
    rows inserted by [createTask], [updateTask] and [deleteTask] have a NULL
    identifier, so from empty tables and after any list of calls,
    [updateSyncStatus] with any identifier changes no row of either table. *)
Theorem updateSyncStatus_misses_service_rows (cs : list Call) (up : bool)
    (remote : nat -> Data -> PostResult) (now id : string) (s : QueueStatus)
    (msg : option string) :
  let w := history cs (boot up remote) in
  db (world_after (Database.updateSyncStatus now id s msg) w) = db w.
Proof.
  intros w. unfold world_after. rewrite updateSyncStatus_run. simpl.
  destruct (db w) as [ts q] eqn:Hdb. simpl. f_equal.
  assert (Hp : Forall (fun r => SyncQueueItem.id r = None) (sync_queue (db w))).
  { subst w. clear Hdb. induction cs as [|c cs IH] using rev_ind; [by constructor |].
    rewrite history_snoc.
    destruct (call_queue c (history cs (boot up remote)))
      as [-> | (t & r & _ & _ & (Hid & _) & _ & ->)]; [done |].
    apply Forall_app. split; [done |]. by apply Forall_singleton. }
  rewrite Hdb in Hp. simpl in Hp.
  clear Hdb. induction Hp as [|r q Hid _ IH]; [done |].
  rewrite fmap_cons, IH. f_equal. apply touch_miss. by rewrite Hid.
Qed.

Lemma omap_stamp_snoc cs c :
  omap stamp (cs ++ [c]) = omap stamp cs ++ option_list (stamp c).
Proof. rewrite omap_app. simpl. by destruct (stamp c). Qed.

(** X15. With a clock that never goes back, the queue table is in creation
    order: from empty tables, after any list of calls whose time stamps are
    non-decreasing, the rows of the queue are sorted by [created_at] in
    their stored order, the order in which both passes send them, and the
    [created_at] of every row is the time stamp of one of the calls. *)
Theorem history_queue_in_clock_order (cs : list Call) (up : bool)
    (remote : nat -> Data -> PostResult) :
  monotone_clock cs →
  StronglySorted Sql.created_le (sync_queue (db (history cs (boot up remote)))) ∧
  Forall (fun r => SyncQueueItem.created_at r ∈ omap stamp cs)
    (sync_queue (db (history cs (boot up remote)))).
Proof.
  unfold monotone_clock.
  induction cs as [|c cs IH] using rev_ind; intros Hmono.
  { split; constructor. }
  rewrite omap_stamp_snoc in Hmono |- *. rewrite history_snoc.
  destruct (IH (StronglySorted_app_1_l _ _ _ Hmono)) as [Hsorted Hstamps].
  assert (Hold : Forall (fun r => SyncQueueItem.created_at r
                                    ∈ omap stamp cs ++ option_list (stamp c))
                   (sync_queue (db (history cs (boot up remote))))).
  { eapply Forall_impl; [exact Hstamps |]. intros r Hr. apply elem_of_app. by left. }
  destruct (call_queue c (history cs (boot up remote)))
    as [-> | (now & r & Hstamp & Hat & _ & _ & ->)]; [done |].
  rewrite Hstamp in Hmono, Hold |- *. simpl in *. split.
  - apply StronglySorted_app_2; [| done | by repeat constructor].
    intros r1 r2 Hr1 ->%list_elem_of_singleton.
    rewrite Forall_forall in Hstamps. unfold Sql.created_le. rewrite Hat.
    eapply (StronglySorted_app_1_elem_of clock_le); [exact Hmono | by apply Hstamps |].
    by apply list_elem_of_singleton.
  - apply Forall_app. split; [done |]. apply Forall_singleton.
    rewrite Hat. apply elem_of_app. right. by apply list_elem_of_singleton.
Qed.

Lemma history_queue_in_clock_order_witness :
  let cs := [CreateTask "a" Scenario.t0 (Scenario.titled "A");
             UpdateTask Scenario.t1 "a" (Scenario.titled "B");
             Sync;
             DeleteTask Scenario.t2 "a"] in
  monotone_clock cs ∧
  StronglySorted Sql.created_le
    (sync_queue (db (history cs (boot true Scenario.refuses)))) ∧
  Forall (fun r => SyncQueueItem.created_at r ∈ omap stamp cs)
    (sync_queue (db (history cs (boot true Scenario.refuses)))).
Proof.
  intros cs.
  assert (H : monotone_clock cs).
  { unfold monotone_clock, cs. simpl. repeat constructor. }
  split; [exact H |].
  apply (history_queue_in_clock_order cs true Scenario.refuses H).
Defined.

(** ** The queue table, continued *)

Lemma limit_subseteq {A} (n : Z) (rows : list A) : Sql.limit n rows ⊆ rows.
Proof. unfold Sql.limit. case_match; [done | apply subseteq_take]. Qed.


Lemma pending_rows_eq (q : list SyncQueueItem.t) :
  filter (fun r => Sql.is_pending r = true) q
  = filter (fun r => SyncQueueItem.status r = q_pending) q.
Proof.
  apply list_filter_iff. intros r. unfold Sql.is_pending.
  by rewrite bool_decide_eq_true.
Qed.

Lemma getSyncQueue_pending batchSize w batch :
  result_of (Database.getSyncQueue batchSize) w = Ok batch →
  batch ⊆ filter (fun r => SyncQueueItem.status r = q_pending) (sync_queue (db w)).
Proof.
  unfold result_of. destruct (Sql.int64 batchSize) eqn:Hn.
  - rewrite (getSyncQueue_run batchSize w Hn). simpl. intros [= <-].
    rewrite <- pending_rows_eq. etrans; [apply limit_subseteq |].
    intros r. by rewrite merge_sort_Permutation.
  - by rewrite (getSyncQueue_mismatch batchSize w Hn).
Qed.



Lemma addToSyncQueue_run id db_now taskId op payload w :
  Database.addToSyncQueue id db_now taskId op payload w =
  if bool_decide (Exists (fun r => SyncQueueItem.id r = Some id) (sync_queue (db w)))
  then (Threw (SqliteConstraint "UNIQUE constraint failed: sync_queue.id"), w)
  else (Ok tt,
        set_db (mkStore (tasks (db w))
                  (sync_queue (db w) ++
                   [SyncQueueItem.mk (Some id) taskId op payload q_pending db_now 0
                      None None])) w).
Proof.
  unfold Database.addToSyncQueue, Sql.insert_queue_with_id, bind, get_db. simpl.
  by case_bool_decide.
Qed.

(** X17. Enqueue then dequeue: [Database.addToSyncQueue] with an identifier
    no queue row has fulfils, leaves the task table and the earlier queue
    rows alone and appends one pending row with retry counter 0; an unbounded
    [getSyncQueue] that follows returns that row.  No task has to exist
    under [taskId]: the foreign key is not enforced. *)
Theorem addToSyncQueue_then_getSyncQueue (w : World) (id db_now taskId : string)
    (op : Operation) (payload : Data) :
  Forall (fun r => SyncQueueItem.id r ≠ Some id) (sync_queue (db w)) →
  let row := SyncQueueItem.mk (Some id) taskId op payload q_pending db_now 0 None None in
  let w' := world_after (Database.addToSyncQueue id db_now taskId op payload) w in
  result_of (Database.addToSyncQueue id db_now taskId op payload) w = Ok tt ∧
  tasks (db w') = tasks (db w) ∧
  sync_queue (db w') = sync_queue (db w) ++ [row] ∧
  ∃ batch, result_of (Database.getSyncQueue (-1)) w' = Ok batch ∧ row ∈ batch.
Proof.
  intros Hfree row w'. subst w'. unfold result_of, world_after.
  rewrite addToSyncQueue_run, bool_decide_eq_false_2
    by (by rewrite <- Forall_Exists_neg).
  cbn [fst snd].
  set (w1 := set_db (mkStore (tasks (db w)) (sync_queue (db w) ++ [row])) w).
  do 3 (split; [done |]).
  unfold w1. rewrite getSyncQueue_run by reflexivity. eexists. split; [reflexivity |].
  change (Sql.limit (-1) ?l) with l. rewrite merge_sort_Permutation.
  apply list_elem_of_filter. split; [done |]. simpl.
  apply elem_of_app. right. by apply list_elem_of_singleton.
Qed.

Lemma addToSyncQueue_then_getSyncQueue_witness :
  let w := Scenario.created true Scenario.refuses in
  let row := SyncQueueItem.mk (Some "q1") "zz" update (DId "zz") q_pending
               "2024-01-01 00:00:00" 0 None None in
  let w' := world_after (Database.addToSyncQueue "q1" "2024-01-01 00:00:00" "zz"
                           update (DId "zz")) w in
  Forall (fun r => SyncQueueItem.id r ≠ Some "q1") (sync_queue (db w)) ∧
  result_of (Database.addToSyncQueue "q1" "2024-01-01 00:00:00" "zz" update (DId "zz")) w
    = Ok tt ∧
  tasks (db w') = tasks (db w) ∧
  sync_queue (db w') = sync_queue (db w) ++ [row] ∧
  ∃ batch, result_of (Database.getSyncQueue (-1)) w' = Ok batch ∧ row ∈ batch.
Proof.
  intros w row w'.
  assert (H : Forall (fun r => SyncQueueItem.id r ≠ Some "q1") (sync_queue (db w))).
  { repeat constructor. discriminate. }
  split; [exact H |].
  apply (addToSyncQueue_then_getSyncQueue w "q1" "2024-01-01 00:00:00" "zz" update
           (DId "zz") H).
Defined.

(** X18. A taken queue identifier: when a queue row already has the
    identifier, [Database.addToSyncQueue] rejects on the primary key and
    writes nothing. *)
Theorem addToSyncQueue_rejects_taken_id (w : World) (id db_now taskId : string)
    (op : Operation) (payload : Data) :
  Exists (fun r => SyncQueueItem.id r = Some id) (sync_queue (db w)) →
  Database.addToSyncQueue id db_now taskId op payload w
    = (Threw (SqliteConstraint "UNIQUE constraint failed: sync_queue.id"), w).
Proof. intros H. by rewrite addToSyncQueue_run, bool_decide_eq_true_2. Qed.

Lemma addToSyncQueue_rejects_taken_id_witness :
  Exists (fun r => SyncQueueItem.id r = Some "q1") (sync_queue (db Scenario.enqueued)) ∧
  Database.addToSyncQueue "q1" "2024-01-02 00:00:00" "b" update (DId "b") Scenario.enqueued
    = (Threw (SqliteConstraint "UNIQUE constraint failed: sync_queue.id"),
       Scenario.enqueued).
Proof.
  assert (H : Exists (fun r => SyncQueueItem.id r = Some "q1")
                (sync_queue (db Scenario.enqueued))).
  { apply Exists_cons_hd. reflexivity. }
  split; [exact H |].
  apply (addToSyncQueue_rejects_taken_id Scenario.enqueued "q1" "2024-01-02 00:00:00"
           "b" update (DId "b") H).
Defined.

(** X19. A settled row is never dequeued again: after [updateSyncStatus]
    marks an identifier success or error, no row with that identifier is
    returned by [getSyncQueue], whatever the batch size, although the row
    stays in the table. *)
Theorem updateSyncStatus_settles (w : World) (now id : string) (s : QueueStatus)
    (msg : option string) (batchSize : Z) (batch : list SyncQueueItem.t) :
  s ≠ q_pending →
  let w' := world_after (Database.updateSyncStatus now id s msg) w in
  result_of (Database.getSyncQueue batchSize) w' = Ok batch →
  Forall (fun r => SyncQueueItem.id r ≠ Some id) batch ∧
  length (sync_queue (db w')) = length (sync_queue (db w)).
Proof.
  intros Hs w' Hbatch. subst w'. unfold world_after in *.
  rewrite updateSyncStatus_run in *. simpl in *. split; [| by rewrite length_fmap].
  apply Forall_forall. intros r Hr Hid.
  apply (getSyncQueue_pending _ _ _ Hbatch) in Hr. simpl in Hr.
  apply list_elem_of_filter in Hr as [Hpend Hr].
  apply list_elem_of_fmap in Hr as (r0 & -> & _).
  rewrite touch_id in Hid.
  destruct (touch_hit id s now (Database.or_null msg) r0 Hid) as [Hst _]. congruence.
Qed.

Lemma updateSyncStatus_settles_witness :
  let w' := world_after (Database.updateSyncStatus Scenario.t1 "q1" q_success None)
              Scenario.enqueued in
  q_success ≠ q_pending ∧
  result_of (Database.getSyncQueue 50) w' = Ok [] ∧
  Forall (fun r => SyncQueueItem.id r ≠ Some "q1") [] ∧
  length (sync_queue (db w')) = length (sync_queue (db Scenario.enqueued)).
Proof.
  intros w'.
  assert (H1 : q_success ≠ q_pending) by discriminate.
  assert (H2 : result_of (Database.getSyncQueue 50) w' = Ok []) by reflexivity.
  split; [exact H1 |]. split; [exact H2 |].
  apply (updateSyncStatus_settles Scenario.enqueued Scenario.t1 "q1" q_success None 50
           [] H1 H2).
Defined.

(** X20. What [updateSyncStatus] leaves alone: the task table; the number
    and order of the queue rows; in every row the identifier, the task, the
    operation, the payload and the creation time; and, entirely, every row
    whose identifier is not the one given (so an unknown identifier changes
    nothing). *)
Theorem updateSyncStatus_frame (w : World) (now id : string) (s : QueueStatus)
    (msg : option string) :
  let w' := world_after (Database.updateSyncStatus now id s msg) w in
  result_of (Database.updateSyncStatus now id s msg) w = Ok tt ∧
  tasks (db w') = tasks (db w) ∧
  net w' = net w ∧
  Forall2 (fun r r' =>
             SyncQueueItem.id r' = SyncQueueItem.id r ∧
             SyncQueueItem.task_id r' = SyncQueueItem.task_id r ∧
             SyncQueueItem.operation r' = SyncQueueItem.operation r ∧
             SyncQueueItem.data r' = SyncQueueItem.data r ∧
             SyncQueueItem.created_at r' = SyncQueueItem.created_at r ∧
             (SyncQueueItem.id r ≠ Some id → r' = r))
    (sync_queue (db w)) (sync_queue (db w')).
Proof.
  intros w'. subst w'. unfold result_of, world_after.
  rewrite updateSyncStatus_run. simpl. do 3 (split; [done |]).
  induction (sync_queue (db w)) as [|r q IH]; [constructor |].
  rewrite fmap_cons. constructor; [| exact IH].
  unfold Sql.touch. case_bool_decide; simpl; repeat split; try done.
Qed.

(** ** The passes, outcome by outcome *)

Lemma post_wire body w :
  wire (net (snd (Axios.post body w)))
  = wire (net w) ++ [(body, respond (net w) (length (wire (net w))) body)].
Proof. unfold Axios.post. by destruct (respond _ _ _). Qed.

Lemma wire_post_all rows :
  ∀ w, wire (net (post_all rows w)) = wire (net w) ++ attempts rows w.
Proof.
  induction rows as [|item rows IH]; intros w; simpl.
  - by rewrite app_nil_r.
  - unfold post_all in *. simpl. rewrite IH, post_wire. by rewrite <- app_assoc.
Qed.

Lemma db_post_all rows : ∀ w, db (post_all rows w) = db w.
Proof.
  induction rows as [|item rows IH]; intros w; [done |].
  unfold post_all in *. simpl. by rewrite IH, post_db.
Qed.

Lemma length_attempts rows : ∀ w, length (attempts rows w) = length rows.
Proof. induction rows as [|item rows IH]; intros w; simpl; [done | by rewrite IH]. Qed.

Section worlds.
Context {S : Type} (body : SyncQueueItem.t -> S -> M S).
Hypothesis body_only_posts : only_posts body.

Lemma for_of_world rows : ∀ s w, snd (for_of rows body s w) = post_all rows w.
Proof.
  induction rows as [|item rows IH]; intros s w; [done |].
  rewrite run_for_of_cons. destruct (body_only_posts item s w) as [s1 ->].
  by rewrite IH.
Qed.

End worlds.

Lemma sync_world w :
  world_after SyncService.sync w = post_all (sync_queue (db w)) w.
Proof.
  unfold world_after, SyncService.sync, Sql.select_queue, bind, get_db, ret. simpl.
  rewrite <- (for_of_world _ sync_item_only_posts (sync_queue (db w)) (0, 0) w).
  by destruct (for_of _ _ _ w) as [[[? ?]|?] ?].
Qed.



Lemma outcomes_post_all {A} (c : M A) rows w :
  world_after c w = post_all rows w → outcomes_of c w = (attempts rows w).*2.
Proof.
  intros H. unfold outcomes_of. rewrite H, wire_post_all, fmap_app.
  rewrite <- (length_fmap snd (wire (net w))). by rewrite drop_app_length.
Qed.

Lemma sync_item_run item s f w :
  SyncService.sync_item item (s, f) w =
  (Ok (if is_rejected (respond (net w) (length (wire (net w))) (SyncQueueItem.data item))
       then (s, f + 1) else (s + 1, f)),
   snd (Axios.post (SyncQueueItem.data item) w)).
Proof.
  unfold SyncService.sync_item, try_catch. rewrite run_bind. unfold Axios.post.
  by destruct (respond _ _ _).
Qed.

Lemma for_of_sync_tally rows :
  ∀ s f w,
    fst (for_of rows SyncService.sync_item (s, f) w)
    = Ok (s + length (filter (fun o => is_rejected o = false) (attempts rows w).*2),
          f + length (filter (fun o => is_rejected o = true) (attempts rows w).*2)).
Proof.
  induction rows as [|item rows IH]; intros s f w.
  - simpl. do 2 f_equal; lia.
  - rewrite run_for_of_cons, sync_item_run.
    change (attempts (item :: rows) w) with
      ((SyncQueueItem.data item,
        respond (net w) (length (wire (net w))) (SyncQueueItem.data item))
       :: attempts rows (snd (Axios.post (SyncQueueItem.data item) w))).
    rewrite fmap_cons. cbn [snd].
    destruct (respond (net w) (length (wire (net w))) (SyncQueueItem.data item))
      as [resp|e]; cbn [is_rejected]; rewrite IH.
    + rewrite (filter_cons_True (fun o => is_rejected o = false)) by done.
      rewrite (filter_cons_False (fun o => is_rejected o = true)) by done.
      simpl. do 2 f_equal; lia.
    + rewrite (filter_cons_False (fun o => is_rejected o = false)) by done.
      rewrite (filter_cons_True (fun o => is_rejected o = true)) by done.
      simpl. do 2 f_equal; lia.
Qed.

(** X21. The summary of [sync()] is the tally of the POSTs: one POST is
    attempted per queue row, [synced_items] is the number of POSTs the remote
    fulfilled, [failed_items] the number it rejected, and [success] is true
    exactly when none was rejected (so also on an empty queue). *)
Theorem sync_tallies_outcomes (w : World) :
  ∃ r,
    result_of SyncService.sync w = Ok r ∧
    length (outcomes_of SyncService.sync w) = length (sync_queue (db w)) ∧
    SyncResult.synced_items r
      = length (filter (fun o => is_rejected o = false) (outcomes_of SyncService.sync w)) ∧
    SyncResult.failed_items r
      = length (filter (fun o => is_rejected o = true) (outcomes_of SyncService.sync w)) ∧
    (SyncResult.success r = true ↔
     Forall (fun o => is_rejected o = false) (outcomes_of SyncService.sync w)).
Proof.
  rewrite (outcomes_post_all _ _ _ (sync_world w)).
  unfold result_of, SyncService.sync, Sql.select_queue, bind, get_db, ret. simpl.
  pose proof (for_of_sync_tally (sync_queue (db w)) 0 0 w) as Hrun.
  destruct (for_of _ _ _ w) as [[[s f]|e] w1]; simpl in Hrun; simplify_eq.
  eexists. split; [reflexivity |]. simpl.
  split; [by rewrite length_fmap, length_attempts |]. do 2 (split; [done |]).
  rewrite bool_decide_eq_true.
  set (os := (attempts (sync_queue (db w)) w).*2). clearbody os.
  induction os as [|o os IH]; [by split; [constructor |] |].
  destruct o as [resp|e].
  - rewrite filter_cons_False by done. rewrite IH, Forall_cons.
    split; [by split | by intros [_ ?]].
  - rewrite filter_cons_True by done. split; [done |].
    intros H. by apply Forall_cons in H as [? _].
Qed.










(** ** Listing tasks *)

Lemma elem_of_select (P : Task.t → Prop) `{!∀ r, Decision (P r)}
    (m : gmap string Task.t) (t : Task.t) :
  t ∈ TaskService.of_row <$> filter P (map_to_list m).*2 ↔
  ∃ k row, m !! k = Some row ∧ P row ∧ t = TaskService.of_row row.
Proof.
  rewrite list_elem_of_fmap. split.
  - intros (row & -> & Hrow). apply list_elem_of_filter in Hrow as [HP Hrow].
    apply list_elem_of_fmap in Hrow as ([k row'] & -> & Hin).
    apply elem_of_map_to_list in Hin. by exists k, row'.
  - intros (k & row & Hk & HP & ->). exists row. split; [done |].
    apply list_elem_of_filter. split; [done |].
    apply list_elem_of_fmap. exists (k, row). split; [done |].
    by apply elem_of_map_to_list.
Qed.

Lemma getAllTasks_run w :
  TaskService.getAllTasks w
  = (Ok (TaskService.of_row <$>
           filter (fun r => Task.is_deleted r = false) (map_to_list (tasks (db w))).*2), w).
Proof. reflexivity. Qed.

Lemma getTasksNeedingSync_run w :
  TaskService.getTasksNeedingSync w
  = (Ok (TaskService.of_row <$>
           filter (fun r => Task.sync_status r = pending ∨ Task.sync_status r = error)
             (map_to_list (tasks (db w))).*2), w).
Proof. reflexivity. Qed.

(** X24. [getAllTasks] returns the live tasks and only them: a task is in
    its result exactly when it is the object built from a stored row that is
    not soft-deleted; the call writes nothing.  (The order of the result is
    not modelled.) *)
Theorem getAllTasks_live_only (w : World) :
  ∃ ts,
    TaskService.getAllTasks w = (Ok ts, w) ∧
    ∀ t, t ∈ ts ↔
         ∃ k row, tasks (db w) !! k = Some row ∧ Task.is_deleted row = false ∧
                  t = TaskService.of_row row.
Proof.
  eexists. split; [apply getAllTasks_run |]. intros t. apply elem_of_select.
Qed.

(** X25. A soft-deleted task leaves the listing but not the sync backlog: in
    a store where every row sits under its own identifier, after
    [deleteTask] of a live task no task with that identifier is returned by
    [getAllTasks], while [getTasksNeedingSync] returns it, flagged deleted
    and pending. *)
Theorem deleteTask_hides_from_listing (w : World) (now id : string) (row : Task.t) :
  keys_match (db w) →
  live (db w) id row →
  let w' := world_after (TaskService.deleteTask now id) w in
  ∃ listed backlog,
    result_of TaskService.getAllTasks w' = Ok listed ∧
    result_of TaskService.getTasksNeedingSync w' = Ok backlog ∧
    Forall (fun t => Task.id t ≠ id) listed ∧
    Task.mk (Task.id row) (Task.title row) (Task.description row) (Task.completed row)
      (Task.created_at row) now true pending None None ∈ backlog.
Proof.
  intros Hkeys [Hrow Hlive] w'. subst w'. unfold result_of, world_after.
  rewrite (deleteTask_run_live now id w row Hrow Hlive).
  rewrite getAllTasks_run, getTasksNeedingSync_run. simpl.
  eexists _, _. split; [reflexivity |]. split; [reflexivity |]. split.
  - apply Forall_forall. intros t Ht Hid.
    apply elem_of_select in Ht as (k & r & Hk & Hdel & ->). simpl in Hid.
    destruct (decide (id = k)) as [->|Hne].
    + rewrite lookup_insert_eq in Hk. by simplify_eq.
    + rewrite lookup_insert_ne in Hk by done. apply Hkeys in Hk. congruence.
  - apply elem_of_select. eexists id, _. rewrite lookup_insert_eq.
    split; [done |]. split; [by left | done].
Qed.

Lemma deleteTask_hides_from_listing_witness :
  let w := Scenario.created true Scenario.refuses in
  let row := Task.mk "a" "A" "" false Scenario.t0 Scenario.t0 false pending None None in
  let w' := world_after (TaskService.deleteTask Scenario.t1 "a") w in
  keys_match (db w) ∧
  live (db w) "a" row ∧
  ∃ listed backlog,
    result_of TaskService.getAllTasks w' = Ok listed ∧
    result_of TaskService.getTasksNeedingSync w' = Ok backlog ∧
    Forall (fun t => Task.id t ≠ "a") listed ∧
    Task.mk (Task.id row) (Task.title row) (Task.description row) (Task.completed row)
      (Task.created_at row) Scenario.t1 true pending None None ∈ backlog.
Proof.
  intros w row w'.
  assert (H1 : keys_match (db w)).
  { intros k r Hk.
    by destruct (call_new_task (CreateTask "a" Scenario.t0 (Scenario.titled "A"))
                   (boot true Scenario.refuses) k r (lookup_empty k) Hk). }
  assert (H2 : live (db w) "a" row) by (split; reflexivity).
  split; [exact H1 |]. split; [exact H2 |].
  apply (deleteTask_hides_from_listing w Scenario.t1 "a" row H1 H2).
Defined.

(** ** The routers *)

(** X26. POST /api/tasks answers 201 with the created task whenever the
    identifier drawn is fresh, whatever the body (there is no 400: a body
    without title, or with an empty one, is accepted); it answers 500
    "Internal Server Error", and writes nothing, when the identifier is
    taken.  The handler itself never rejects. *)
Theorem TaskRouter_post_reply (w : World) (id now : string) (body : PartialTask.t) :
  TaskRouter.post id now body w =
  match tasks (db w) !! id with
  | None =>
      (Ok (Http.mk 201
             (Http.JTask
                (Task.mk id (TaskService.String_ (PartialTask.title body))
                   (default "" (PartialTask.description body))
                   (default false (PartialTask.completed body))
                   now now false pending None None))),
       world_after (TaskService.createTask id now body) w)
  | Some _ => (Ok Http.internal_error, w)
  end.
Proof.
  unfold TaskRouter.post, try_catch, world_after. rewrite run_bind.
  destruct (tasks (db w) !! id) as [row|] eqn:Hid.
  - by destruct (createTask_taken id now body w) as [e ->]; [by eexists |].
  - rewrite (createTask_run id now body w Hid). simpl.
    by destruct body as [? [?|] [?|]].
Qed.

(** X27. A deleted task over HTTP: DELETE of a live task answers 200 "Task
    deleted"; afterwards GET of the same identifier still answers 200, with
    the task flagged [is_deleted], while PUT and a second DELETE answer 404
    "Task not found" and write nothing. *)
Theorem TaskRouter_after_delete (w : World) (now now' id : string)
    (body : PartialTask.t) (row : Task.t) :
  live (db w) id row →
  let w' := world_after (TaskRouter.delete now id) w in
  result_of (TaskRouter.delete now id) w = Ok (Http.mk 200 (Http.JMessage "Task deleted")) ∧
  TaskRouter.get id w'
    = (Ok (Http.mk 200
             (Http.JTask
                (Task.mk (Task.id row) (Task.title row) (Task.description row)
                   (Task.completed row) (Task.created_at row) now true pending
                   None None))), w') ∧
  TaskRouter.put now' id body w' = (Ok Http.not_found, w') ∧
  TaskRouter.delete now' id w' = (Ok Http.not_found, w').
Proof.
  intros [Hrow Hlive] w'.
  assert (Hw : w' = world_after (TaskService.deleteTask now id) w).
  { subst w'. unfold world_after, TaskRouter.delete, try_catch. rewrite run_bind.
    by rewrite (deleteTask_run_live now id w row Hrow Hlive). }
  split.
  { unfold result_of, TaskRouter.delete, try_catch. rewrite run_bind.
    by rewrite (deleteTask_run_live now id w row Hrow Hlive). }
  clearbody w'. subst w'. split; [| split].
  - unfold TaskRouter.get, try_catch. rewrite run_bind, getTask_run.
    unfold world_after. rewrite (deleteTask_run_live now id w row Hrow Hlive). simpl.
    by rewrite lookup_insert_eq.
  - unfold TaskRouter.put, try_catch. rewrite run_bind.
    by rewrite updateTask_run_dead by apply gone_after_deleteTask.
  - unfold TaskRouter.delete, try_catch. rewrite run_bind.
    by rewrite deleteTask_run_dead by apply gone_after_deleteTask.
Qed.

Lemma TaskRouter_after_delete_witness :
  let w := Scenario.created true Scenario.refuses in
  let row := Task.mk "a" "A" "" false Scenario.t0 Scenario.t0 false pending None None in
  let w' := world_after (TaskRouter.delete Scenario.t1 "a") w in
  live (db w) "a" row ∧
  result_of (TaskRouter.delete Scenario.t1 "a") w
    = Ok (Http.mk 200 (Http.JMessage "Task deleted")) ∧
  TaskRouter.get "a" w'
    = (Ok (Http.mk 200
             (Http.JTask
                (Task.mk (Task.id row) (Task.title row) (Task.description row)
                   (Task.completed row) (Task.created_at row) Scenario.t1 true pending
                   None None))), w') ∧
  TaskRouter.put Scenario.t2 "a" (Scenario.titled "B") w' = (Ok Http.not_found, w') ∧
  TaskRouter.delete Scenario.t2 "a" w' = (Ok Http.not_found, w').
Proof.
  intros w row w'.
  assert (H : live (db w) "a" row) by (split; reflexivity).
  split; [exact H |].
  apply (TaskRouter_after_delete w Scenario.t1 Scenario.t2 "a" (Scenario.titled "B") row H).
Defined.

(** X28. An unknown identifier over HTTP: GET, PUT and DELETE of an
    identifier no task row has all answer 404 "Task not found" and write
    nothing. *)
Theorem TaskRouter_unknown_id (w : World) (now id : string) (body : PartialTask.t) :
  tasks (db w) !! id = None →
  TaskRouter.get id w = (Ok Http.not_found, w) ∧
  TaskRouter.put now id body w = (Ok Http.not_found, w) ∧
  TaskRouter.delete now id w = (Ok Http.not_found, w).
Proof.
  intros Hid. split; [| split].
  - unfold TaskRouter.get, try_catch. by rewrite run_bind, getTask_run, Hid.
  - unfold TaskRouter.put, try_catch. rewrite run_bind.
    by rewrite updateTask_run_dead by (by left).
  - unfold TaskRouter.delete, try_catch. rewrite run_bind.
    by rewrite deleteTask_run_dead by (by left).
Qed.

Lemma TaskRouter_unknown_id_witness :
  let w := Scenario.created true Scenario.refuses in
  tasks (db w) !! "b" = None ∧
  TaskRouter.get "b" w = (Ok Http.not_found, w) ∧
  TaskRouter.put Scenario.t1 "b" (Scenario.titled "B") w = (Ok Http.not_found, w) ∧
  TaskRouter.delete Scenario.t1 "b" w = (Ok Http.not_found, w).
Proof.
  intros w.
  assert (H : tasks (db w) !! "b" = None) by reflexivity.
  split; [exact H |].
  apply (TaskRouter_unknown_id w Scenario.t1 "b" (Scenario.titled "B") H).
Defined.


(** X30. Enqueue then sync: [SyncService.addToSyncQueue] fulfils for any
    task identifier (no task has to exist), leaves the task table alone and
    appends one pending row without identifier, whose payload is the data
    given, or the empty object when none is given; the next [sync()] POSTs
    the payloads of the earlier rows and then that payload. *)
Theorem addToSyncQueue_then_sync (w : World) (now taskId : string) (op : Operation)
    (data : option Data) :
  let w' := world_after (SyncService.addToSyncQueue now taskId op data) w in
  result_of (SyncService.addToSyncQueue now taskId op data) w = Ok tt ∧
  tasks (db w') = tasks (db w) ∧
  sync_queue (db w') = sync_queue (db w) ++
    [SyncQueueItem.mk None taskId op (default (DJson "{}") data) q_pending now 0
       None None] ∧
  transmitted_by SyncService.sync w'
    = (SyncQueueItem.data <$> sync_queue (db w)) ++ [default (DJson "{}") data].
Proof.
  intros w'.
  assert (Hq : sync_queue (db w') = sync_queue (db w) ++
            [SyncQueueItem.mk None taskId op (default (DJson "{}") data) q_pending now 0
               None None]) by (by destruct data).
  do 2 (split; [done |]). split; [exact Hq |].
  destruct (sync_run w') as (r & _ & _ & _ & Hsent).
  rewrite (transmitted_by_app _ _ _ Hsent), Hq, fmap_app. done.
Qed.
